(** * tota11y: the colour-blind contrast plugin

    A shallow embedding of [plugins/cbcontrast/index.js] and the properties
    of its simulation step ([blind]), of the per-deficiency evaluation
    ([runOneType]) with its [combinations] registry, and of the audit run
    ([run]) with its temporary [axs.utils.parseColor] proxy.

    The plugin is glue code around three libraries: the accessibility
    developer tools ([axs]), the [color-blind] package ([blinder]) and the
    [annotate] module.  Their functions are not part of this file's source;
    they are gathered in the record [externals] and every definition and
    theorem is parametrised by it. *)

From Stdlib Require Import ZArith QArith Qround Ascii String List Lia.
From stdpp Require Import gmap strings pretty.

Open Scope string_scope.
Open Scope list_scope.

(** ** JavaScript numbers and values *)

(** A JavaScript Number: every finite double is a rational, so the finite
    case is over-approximated by [Q]; the three non-finite values are kept
    apart because [ToInt32] sends them to zero. *)
Inductive number : Type :=
  | NaN
  | Infinity (negative : bool)
  | Finite (q : Q).

Definition of_Z (z : Z) : number := Finite (inject_Z z).

(** ECMAScript [ToInt32]: non-finite values give 0; a finite value is
    truncated toward zero, reduced modulo 2^32 and read as a signed
    32-bit integer. *)
Definition ToInt32 (x : number) : Z :=
  match x with
  | NaN | Infinity _ => 0
  | Finite q =>
      let int := Z.quot (Qnum q) (Zpos (Qden q)) in
      let int32bit := (int mod 2 ^ 32)%Z in
      if (2 ^ 31 <=? int32bit)%Z then (int32bit - 2 ^ 32)%Z else int32bit
  end.

(** The binary operator [x | y] on numbers. *)
Definition bitor (x y : number) : number :=
  of_Z (Z.lor (ToInt32 x) (ToInt32 y)).

(** The values a slot of the [combinations] object can hold: nothing
    ([undefined], for a key that was never assigned), the boolean written on
    the passing path, or the reference to an error entry. *)
Inductive value (object : Type) : Type :=
  | VUndefined
  | VBool (b : bool)
  | VObject (o : object).
Arguments VUndefined {object}.
Arguments VBool {object} b.
Arguments VObject {object} o.

(** ECMAScript [ToBoolean], which [!combinations[key]] applies. *)
Definition ToBoolean {object : Type} (v : value object) : bool :=
  match v with
  | VUndefined => false
  | VBool b => b
  | VObject _ => true
  end.

(** ** Colours *)

(** An [axs.utils.Color]. *)
Record Color : Type := mkColor {
  red : number;
  green : number;
  blue : number;
  alpha : number
}.

(** The [{R, G, B}] objects exchanged with the [color-blind] package. *)
Record RGB : Type := mkRGB {
  R : number;
  G : number;
  B : number
}.

(** ** Results of calls that may throw *)

Inductive res (A : Type) : Type :=
  | Ok (a : A)
  | Throw (e : string).
Arguments Ok {A} a.
Arguments Throw {A} e.

(** ** The simulation step *)

Section Simulation.

(** [require("color-blind/lib/blind").Blind]: the transform of an RGB
    triple for a deficiency type; the third argument is its [anomalize]
    flag.  It is a library call and may throw. *)
Variable blinder : RGB -> string -> bool -> res RGB.

(** [blind(color, blindness)], lines 41-54. *)
Definition blind (color : Color) (blindness : string) : res Color :=
  let alpha := alpha color in
  match blinder {| R := red color; G := green color; B := blue color |}
                blindness false with
  | Throw e => Throw e
  | Ok color =>
      Ok {| red := bitor (R color) (of_Z 0);
            green := bitor (G color) (of_Z 0);
            blue := bitor (B color) (of_Z 0);
            alpha := alpha |}
  end.

End Simulation.

(** ** The collaborators of the plugin *)

(** The object the two handlebars templates are applied to (lines 27-33). *)
Record templateData : Type := mkTemplateData {
  fgColorHex : string;
  bgColorHex : string;
  td_contrastRatio : string;
  td_requiredRatio : string;
  td_blindness : string
}.

(** Everything [index.js] imports or reads from the page.  Functions of
    [axs.utils] that only compute are functions; calls that draw on the page
    or write to the info panel take and return the [World] and may throw.
    The functions of [axs.utils] are taken on the arguments a page gives
    them: styles as [getComputedStyle] returns them and colours that are
    not null.  What the conditional of lines 59-60 does when
    [isLargeFont] throws or returns something else than a boolean is
    [requiredRatio_decision] below. *)
Record externals : Type := {
  (** DOM elements; a jQuery wrapper [$(el)] is identified with [el]. *)
  Elem : Type;
  (** The [CSSStyleDeclaration] that [getComputedStyle] returns. *)
  Style : Type;
  (** The jQuery object [annotate.label] returns. *)
  Label : Type;
  (** Modelled from the spec: [Plugin.prototype.error] belongs to [../base],
      which is not among the sources; the spec says of this report callback
      that it produces a visible report entry and returns an opaque handle,
      so its result is a reference to an entry of the info panel. *)
  Entry : Type;
  (** The page and the info panel. *)
  World : Type;

  blinder : RGB -> string -> bool -> res RGB;

  colorToString : Color -> string;
  isLargeFont : Style -> bool;
  calculateContrastRatio : Color -> Color -> number;
  isLowContrast : string -> Style -> bool;
  (** [Number.prototype.toFixed(digits)]. *)
  toFixed : number -> nat -> string;

  titleTemplate : templateData -> string;
  descriptionTemplate : templateData -> string;

  plugin_error : string -> string -> Elem -> World -> res Entry * World;
  annotate_label : Elem -> string -> World -> res Label * World;
  addClass : Label -> string -> World -> res Label * World;
  annotate_errorLabel :
    Elem -> string -> string -> value Entry -> World -> res unit * World;

  (** [$("*")], in document order. *)
  select_all : World -> list Elem;
  hasDirectTextDescendant : World -> Elem -> bool;
  (** [$(el).parents(selector)]. *)
  parents : World -> Elem -> string -> list Elem;
  elementIsTransparent : World -> Elem -> bool;
  elementHasZeroArea : World -> Elem -> bool;
  getComputedStyle : World -> Elem -> Style;
  (** [axs.utils.getBgColor] and [getFgColor] parse colour strings with
      whatever function [axs.utils.parseColor] holds when they are called. *)
  getBgColor : (string -> option Color) -> World -> Style -> Elem -> Color;
  getFgColor :
    (string -> option Color) -> World -> Style -> Elem -> Color -> Color
}.

(** The calls that reach the page or the info panel, as they are made. *)
Inductive call (X : externals) : Type :=
  | CallLabel (el : Elem X) (text : string)
  | CallAddClass (lbl : Label X) (class : string)
  | CallError (title description : string) (el : Elem X)
  | CallErrorLabel (el : Elem X) (text message : string)
      (errorEntry : value (Entry X)).
Arguments CallLabel {X} el text.
Arguments CallAddClass {X} lbl class.
Arguments CallError {X} title description el.
Arguments CallErrorLabel {X} el text message errorEntry.

(** What a run reads and writes: the page, the global slot
    [axs.utils.parseColor], the [combinations] object that [run] creates and
    hands by reference to every [runOneType], and the trace of calls made
    so far. *)
Record state (X : externals) : Type := mkState {
  world : World X;
  parseColor : string -> option Color;
  combinations : gmap string (value (Entry X));
  calls : list (call X)
}.
Arguments mkState {X} world parseColor combinations calls.
Arguments world {X} s.
Arguments parseColor {X} s.
Arguments combinations {X} s.
Arguments calls {X} s.

(** ** A state monad with exceptions *)

Definition M (X : externals) (A : Type) : Type := state X -> res A * state X.

Definition ret {X : externals} {A : Type} (a : A) : M X A :=
  fun s => (Ok a, s).

(** An exception leaves the state as it was when it was thrown and skips
    the rest: nothing in [index.js] catches. *)
Definition bind {X : externals} {A B : Type} (m : M X A) (k : A -> M X B)
  : M X B :=
  fun s =>
    match m s with
    | (Ok a, s') => k a s'
    | (Throw e, s') => (Throw e, s')
    end.

Notation "x <-- m ;; k" := (bind m (fun x => k))
  (at level 100, m at next level, right associativity).
Notation "m ;;; k" := (bind m (fun _ => k))
  (at level 100, right associativity).

Definition lift {X : externals} {A : Type} (r : res A) : M X A :=
  fun s => (r, s).

(** A call on the page: recorded in the trace, then run on the world. *)
Definition perform {X : externals} {A : Type} (c : call X)
    (f : World X -> res A * World X) : M X A :=
  fun s =>
    let (r, w) := f (world s) in
    (r, mkState w (parseColor s) (combinations s) (calls s ++ [c])).

(** [combinations[key]]: an absent own property reads as [undefined].  The
    keys built by [runOneType] contain the character [/], which no property
    inherited from [Object.prototype] does. *)
Definition get_combination {X : externals} (key : string)
  : M X (value (Entry X)) :=
  fun s => (Ok (default VUndefined (combinations s !! key)), s).

(** [combinations[key] = v]. *)
Definition set_combination {X : externals} (key : string)
    (v : value (Entry X)) : M X unit :=
  fun s =>
    (Ok tt,
     mkState (world s) (parseColor s) (<[key := v]> (combinations s))
       (calls s)).

Definition get_world {X : externals} : M X (World X) :=
  fun s => (Ok (world s), s).

Definition get_parseColor {X : externals} : M X (string -> option Color) :=
  fun s => (Ok (parseColor s), s).

Definition set_parseColor {X : externals} (f : string -> option Color)
  : M X unit :=
  fun s => (Ok tt, mkState (world s) f (combinations s) (calls s)).

(** [let combinations = {}]. *)
Definition new_combinations {X : externals} : M X unit :=
  fun s => (Ok tt, mkState (world s) (parseColor s) ∅ (calls s)).

(** [for (var x of l) body(x)] and jQuery's [each] with a callback that
    never returns [false]. *)
Fixpoint forEach {X : externals} {A : Type} (l : list A)
    (body : A -> M X unit) : M X unit :=
  match l with
  | [] => ret tt
  | x :: l' => body x ;;; forEach l' body
  end.

(** ** The plugin *)

(** The argument object of [addError]. *)
Record errorInfo : Type := mkErrorInfo {
  ei_fgColor : Color;
  ei_bgColor : Color;
  ei_blindness : string;
  ei_contrastRatio : string;
  ei_requiredRatio : string
}.

Section Plugin.

Variable X : externals.

(** [addError({fgColor, bgColor, blindness, contrastRatio, requiredRatio},
    el)], lines 25-39. *)
Definition addError (info : errorInfo) (el : Elem X) : M X (Entry X) :=
  let templateData :=
    {| fgColorHex := colorToString X (ei_fgColor info);
       bgColorHex := colorToString X (ei_bgColor info);
       td_contrastRatio := ei_contrastRatio info;
       td_requiredRatio := ei_requiredRatio info;
       td_blindness := ei_blindness info |} in
  perform
    (CallError (titleTemplate X templateData)
       (descriptionTemplate X templateData) el)
    (plugin_error X (titleTemplate X templateData)
       (descriptionTemplate X templateData) el).

(** The required ratio, lines 59-60. *)
Definition requiredRatio_of (style : Style X) : string :=
  if isLargeFont X style then "3.0" else "4.5".

(** The key into [combinations], lines 64-67. *)
Definition key_of (fgColor bgColor : Color) (blindness requiredRatio : string)
  : string :=
  colorToString X fgColor +:+ "/" +:+
  colorToString X bgColor +:+ "/" +:+
  blindness +:+ "/" +:+
  requiredRatio.

Definition insufficient_message : string :=
  "This contrast is insufficient at this size.".

(** [runOneType(el, combinations, fgColor, bgColor, style, blindness,
    blindnessName)], lines 56-110.  The [combinations] argument is the one
    object of the run, held in the state. *)
Definition runOneType (el : Elem X) (fgColor bgColor : Color)
    (style : Style X) (blindness blindnessName : string) : M X unit :=
  let requiredRatio := requiredRatio_of style in
  let key := key_of fgColor bgColor blindness requiredRatio in
  fgColor <-- lift (blind (blinder X) fgColor blindness) ;;
  bgColor <-- lift (blind (blinder X) bgColor blindness) ;;
  let contrastRatio :=
    toFixed X (calculateContrastRatio X fgColor bgColor) 2 in
  if negb (isLowContrast X contrastRatio style) then
    seen <-- get_combination key ;;
    if negb (ToBoolean seen) then
      lbl <-- perform (CallLabel el contrastRatio)
                (annotate_label X el contrastRatio) ;;
      perform (CallAddClass lbl "tota11y-label-success")
        (addClass X lbl "tota11y-label-success") ;;;
      set_combination key (VBool true)
    else ret tt
  else
    seen <-- get_combination key ;;
    (if negb (ToBoolean seen) then
       error <-- addError
                   {| ei_fgColor := fgColor; ei_bgColor := bgColor;
                      ei_blindness := blindnessName;
                      ei_contrastRatio := contrastRatio;
                      ei_requiredRatio := requiredRatio |} el ;;
       set_combination key (VObject error)
     else ret tt) ;;;
    stored <-- get_combination key ;;
    perform
      (CallErrorLabel el contrastRatio insufficient_message stored)
      (annotate_errorLabel X el contrastRatio insufficient_message stored).

(** The function [run] installs in [axs.utils.parseColor], lines 118-124;
    [new axs.utils.Color(0, 0, 0, 0)] is the colour with these four
    channels. *)
Definition parseColor_proxy (_parseColor : string -> option Color)
    (colorString : string) : option Color :=
  if String.eqb colorString "transparent" then
    Some (mkColor (of_Z 0) (of_Z 0) (of_Z 0) (of_Z 0))
  else
    _parseColor colorString.

(** [<internal name>, <name used on UI and in styles>], lines 131-135. *)
Definition blindnesses : list (string * string) :=
  [("protan", "protanopia");
   ("deutan", "deuteranopia");
   ("tritan", "tritanopia")].

(** The callback of [$("*").each], lines 137-161. *)
Definition each_element (el : Elem X) : M X unit :=
  w <-- get_world ;;
  if negb (hasDirectTextDescendant X w el) then ret tt
  else if (0 <? length (parents X w el ".tota11y"))%nat then ret tt
  else if elementIsTransparent X w el || elementHasZeroArea X w el
  then ret tt
  else
    parse <-- get_parseColor ;;
    let style := getComputedStyle X w el in
    let bgColor := getBgColor X parse w style el in
    let fgColor := getFgColor X parse w style el bgColor in
    forEach blindnesses
      (fun blindness =>
         runOneType el fgColor bgColor style (fst blindness) (snd blindness)).

(** The element loop of [run]. *)
Definition element_loop : M X unit :=
  w <-- get_world ;;
  forEach (select_all X w) each_element.

(** [run()], lines 112-165. *)
Definition run : M X unit :=
  _parseColor <-- get_parseColor ;;
  set_parseColor (parseColor_proxy _parseColor) ;;;
  new_combinations ;;;
  element_loop ;;;
  set_parseColor _parseColor.

End Plugin.

Arguments addError {X} info el.
Arguments requiredRatio_of {X} style.
Arguments runOneType {X} el fgColor bgColor style blindness blindnessName.
Arguments each_element {X} el.
Arguments element_loop {X}.
Arguments run {X}.

(** ** Notions used by the statements *)

(** The value [combinations[key]] reads in a state. *)
Definition stored {X : externals} (s : state X) (key : string)
  : value (Entry X) :=
  default VUndefined (combinations s !! key).

(** A key is seen when [!combinations[key]] is false. *)
Definition seen {X : externals} (s : state X) (key : string) : Prop :=
  ToBoolean (stored s key) = true.

(** One evaluation, whatever its arguments and its outcome. *)
Inductive step {X : externals} : state X -> state X -> Prop :=
  | step_runOneType el fgColor bgColor style blindness blindnessName s r s' :
      runOneType el fgColor bgColor style blindness blindnessName s = (r, s') ->
      step s s'.

(** Any number of evaluations. *)
Definition steps {X : externals} : state X -> state X -> Prop := rtc step.

(** The text of the contrast ratio of two simulated colours, line 71. *)
Definition ratio_text (X : externals) (fg' bg' : Color) : string :=
  toFixed X (calculateContrastRatio X fg' bg') 2.

(** Computations that leave [axs.utils.parseColor] as they found it. *)
Definition keeps_parseColor {X : externals} {A : Type} (m : M X A) : Prop :=
  forall s r s', m s = (r, s') -> parseColor s' = parseColor s.

(** The calls that surface a combination for the first time. *)
Definition first_report {X : externals} (c : call X) : bool :=
  match c with
  | CallLabel _ _ | CallError _ _ _ => true
  | CallAddClass _ _ | CallErrorLabel _ _ _ _ => false
  end.

(** A channel that is an integer between 0 and 255. *)
Definition channel_0_255 (x : number) : Prop :=
  exists (q : Q) (n : Z),
    x = Finite q /\ (q == inject_Z n)%Q /\ (0 <= n <= 255)%Z.

(** What [blind] makes of a channel [x] the transform returned: its
    [ToInt32] conversion [y], a signed 32-bit integer; the floor of [x],
    between 0 and 255, when [x] is finite and lies in [0, 256). *)
Definition converted (x y : number) : Prop :=
  y = of_Z (ToInt32 x) /\
  (- 2 ^ 31 <= ToInt32 x < 2 ^ 31)%Z /\
  forall q : Q,
    x = Finite q -> (0 <= q)%Q -> (q < 256)%Q ->
    y = of_Z (Qfloor q) /\ channel_0_255 y.

(** A channel that is a finite number between 0 and 255. *)
Definition valid_channel (x : number) : Prop :=
  exists q : Q, x = Finite q /\ (0 <= q)%Q /\ (q <= 255)%Q.

(** A colour one of whose red, green and blue channels is not. *)
Definition invalid_color (c : Color) : Prop :=
  ~ (valid_channel (red c) /\ valid_channel (green c) /\
     valid_channel (blue c)).

(** A string without the separator of the key. *)
Fixpoint no_slash (s : string) : bool :=
  match s with
  | EmptyString => true
  | String a s' => negb (Ascii.eqb a "/"%char) && no_slash s'
  end.

(** A transform that overshoots on one side and undershoots on the other. *)
Definition overshoot (rgb : RGB) (type : string) (anomalize : bool)
  : res RGB :=
  Ok (mkRGB (Finite (3007 # 10)) (Finite (- 11 # 2)) NaN).

(** A transform that hands its argument back. *)
Definition passthrough (rgb : RGB) (type : string) (anomalize : bool)
  : res RGB :=
  Ok rgb.

(** ** The range of the transform and the required ratio in full *)

(** The channels the transform is taken to return: a number from 0 to
    255, whole or not, or no number at all. *)
Definition in_transform_range (x : number) : Prop :=
  x = NaN \/ exists q : Q, x = Finite q /\ (0 <= q)%Q /\ (q <= 255)%Q.

(** What [blind] makes of such a channel [x]: a whole number [y] from 0 to
    255, the floor of [x], and 0 when [x] is no number. *)
Definition floored (x y : number) : Prop :=
  channel_0_255 y /\
  (x = NaN -> y = of_Z 0) /\
  forall q : Q, x = Finite q -> y = of_Z (Qfloor q).

(** A JavaScript value, as far as its truth value goes. *)
Inductive jsvalue : Type :=
  | JUndefined
  | JNull
  | JBoolean (b : bool)
  | JNumber (n : number)
  | JString (s : string)
  | JObject.

(** ECMAScript [ToBoolean] on these values. *)
Definition truthy (v : jsvalue) : bool :=
  match v with
  | JUndefined | JNull => false
  | JBoolean b => b
  | JNumber NaN => false
  | JNumber (Infinity _) => true
  | JNumber (Finite q) => negb (Qeq_bool q 0)
  | JString s => negb (String.eqb s "")
  | JObject => true
  end.

(** Lines 59-60 with the call of [axs.utils.isLargeFont] in full: the call
    may throw, and the conditional takes the truth value of whatever it
    returns. *)
Definition requiredRatio_decision {Style : Type}
    (isLargeFont : Style -> res jsvalue) (style : Style) : res string :=
  match isLargeFont style with
  | Throw e => Throw e
  | Ok large => Ok (if truthy large then "3.0" else "4.5")
  end.

Module Typography.

(** The two facts of a style that tell large text; [None] is a property
    that is missing. *)
Record TextStyle : Type := mkTextStyle {
  fontSize : option string;
  fontWeight : option string
}.

Definition is_bold (style : TextStyle) : bool :=
  match fontWeight style with
  | Some weight => String.eqb weight "bold"
  | None => false
  end.

(** A classifier in the manner of [axs.utils.isLargeFont]: it matches the
    text of the font size, and the method call on a missing font size is a
    TypeError.  Here 24px is large, and so is bold 19px. *)
Definition classify (style : TextStyle) : res jsvalue :=
  match fontSize style with
  | None => Throw "TypeError: fontSize is undefined"
  | Some size =>
      Ok (JBoolean
            (String.eqb size "24px" ||
             (String.eqb size "19px" && is_bold style)))
  end.

End Typography.

(** ** Further notions: the registry and the trace over a run *)

(** Every entry of the registry is truthy: a key is seen as soon as it has
    an entry. *)
Definition all_truthy {X : externals} (s : state X) : Prop :=
  forall key v, combinations s !! key = Some v -> ToBoolean v = true.

(** The number of first reports in a trace. *)
Fixpoint first_reports {X : externals} (l : list (call X)) : nat :=
  match l with
  | [] => 0
  | c :: l' => (if first_report c then 1 else 0) + first_reports l'
  end.

(** Computations that, when they complete, have made as many first reports
    as they have added keys to the registry. *)
Definition tallies {X : externals} {A : Type} (m : M X A) : Prop :=
  forall s a s',
    all_truthy s -> m s = (Ok a, s') ->
    all_truthy s' /\
    exists new,
      calls s' = calls s ++ new /\
      size (combinations s') =
        (size (combinations s) + first_reports new)%nat.

(** The elements the callback of [each] returns from at once, lines
    138-152. *)
Definition skipped (X : externals) (w : World X) (el : Elem X) : bool :=
  negb (hasDirectTextDescendant X w el) ||
  (0 <? length (parents X w el ".tota11y"))%nat ||
  (elementIsTransparent X w el || elementHasZeroArea X w el).

(** The object handed to the templates for a failing sample: the texts of
    the simulated colours, the ratio, the required ratio and the display
    name of the deficiency. *)
Definition report_data (X : externals) (fg' bg' : Color) (style : Style X)
    (blindnessName : string) : templateData :=
  {| fgColorHex := colorToString X fg';
     bgColorHex := colorToString X bg';
     td_contrastRatio := ratio_text X fg' bg';
     td_requiredRatio := @requiredRatio_of X style;
     td_blindness := blindnessName |}.

(** ** A small page, for the examples

    A concrete choice of collaborators on which the definitions compute.
    Its transform confuses red and green (both become their mean); its
    contrast is a ratio of summed channels. *)

Module Demo.

Definition mean (x y : number) : number :=
  match x, y with
  | Finite a, Finite b => Finite (Qred ((a + b) / 2))
  | _, _ => NaN
  end.

Definition confuse (rgb : RGB) (type : string) (anomalize : bool)
  : res RGB :=
  if bool_decide (type ∈ ["protan"; "deutan"; "tritan"]) then
    Ok (mkRGB (mean (R rgb) (G rgb)) (mean (R rgb) (G rgb)) (B rgb))
  else Throw "unsupported deficiency".

Definition show (x : number) : string :=
  match x with
  | NaN => "NaN"
  | Infinity negative => if negative then "-Infinity" else "Infinity"
  | Finite q => pretty (Qfloor q)
  end.

Definition show_color (c : Color) : string :=
  "rgba(" +:+ show (red c) +:+ "," +:+ show (green c) +:+ "," +:+
  show (blue c) +:+ "," +:+ show (alpha c) +:+ ")".

Definition lightness (c : Color) : Z :=
  (ToInt32 (red c) + ToInt32 (green c) + ToInt32 (blue c))%Z.

Definition contrast (fg bg : Color) : number :=
  Finite (Qred ((Z.max (lightness fg) (lightness bg) + 38)
                # Z.to_pos (Z.min (lightness fg) (lightness bg) + 38))).

Definition two_digits (n : Z) : string :=
  if (n <? 10)%Z then "0" +:+ pretty n else pretty n.

(** Two decimals, rounded half up; only [digits = 2] is ever asked for. *)
Definition fixed (x : number) (digits : nat) : string :=
  match x with
  | Finite q =>
      let n := Qfloor (q * 100 + (1 # 2))%Q in
      pretty (n / 100)%Z +:+ "." +:+ two_digits (n mod 100)%Z
  | _ => show x
  end.

(** The number of hundredths a two-decimal text stands for. *)
Fixpoint hundredths (text : string) (acc : Z) : Z :=
  match text with
  | EmptyString => acc
  | String a text' =>
      if Ascii.eqb a "."%char then hundredths text' acc
      else hundredths text' (10 * acc + (Z.of_nat (nat_of_ascii a) - 48))%Z
  end.

(** Styles are just the large-font flag. *)
Definition low_contrast (text : string) (large : bool) : bool :=
  (hundredths text 0 <? (if large then 300 else 450))%Z.

Definition template (prefix : string) (d : templateData) : string :=
  prefix +:+ fgColorHex d +:+ " on " +:+ bgColorHex d +:+ ": " +:+
  td_contrastRatio d +:+ " < " +:+ td_requiredRatio d +:+ " (" +:+
  td_blindness d +:+ ")".

Definition rgb (r g b : Z) : Color :=
  mkColor (of_Z r) (of_Z g) (of_Z b) (of_Z 1).

(** A parser that, as in Firefox, does not know the word transparent. *)
Definition parse (colorString : string) : option Color :=
  if String.eqb colorString "black" then Some (rgb 0 0 0)
  else if String.eqb colorString "white" then Some (rgb 255 255 255)
  else if String.eqb colorString "red" then Some (rgb 255 0 0)
  else if String.eqb colorString "green" then Some (rgb 0 255 0)
  else if String.eqb colorString "grey" then Some (rgb 128 128 128)
  else None.

(** The page: element 0 has no text of its own; the others are text in a
    colour on a background.  Elements 3 and 5 repeat the colours of the
    element before them; element 6 is set in a large font. *)
Definition foreground (el : nat) : string :=
  match el with
  | 1 => "black"
  | 2 | 3 => "white"
  | 4 | 5 => "red"
  | _ => "grey"
  end%nat.

Definition background (el : nat) : string :=
  match el with
  | 1 => "transparent"
  | 2 | 3 => "black"
  | 4 | 5 => "green"
  | _ => "grey"
  end%nat.

Definition unparsed : Color := mkColor NaN NaN NaN NaN.

(** A fully transparent background shows the white page behind it. *)
Definition bg_color (parser : string -> option Color) (w : nat)
    (large : bool) (el : nat) : Color :=
  match parser (background el) with
  | Some c => if Z.eqb (ToInt32 (alpha c)) 0 then rgb 255 255 255 else c
  | None => unparsed
  end.

Definition fg_color (parser : string -> option Color) (w : nat)
    (large : bool) (el : nat) (bgColor : Color) : Color :=
  default unparsed (parser (foreground el)).

(** The world counts the objects created on the page and in the panel;
    a new label or entry is named by the count. *)
Definition env : externals :=
  {| Elem := nat;
     Style := bool;
     Label := nat;
     Entry := nat;
     World := nat;
     blinder := confuse;
     colorToString := show_color;
     isLargeFont := fun large => large;
     calculateContrastRatio := contrast;
     isLowContrast := low_contrast;
     toFixed := fixed;
     titleTemplate := template "Insufficient contrast: ";
     descriptionTemplate := template "The contrast of ";
     plugin_error := fun _ _ _ w => (Ok w, S w);
     annotate_label := fun _ _ w => (Ok w, S w);
     addClass := fun lbl _ w => (Ok lbl, w);
     annotate_errorLabel := fun _ _ _ _ w => (Ok tt, S w);
     select_all := fun _ => [0; 1; 2; 3; 4; 5; 6]%nat;
     hasDirectTextDescendant := fun _ el => negb (Nat.eqb el 0);
     parents := fun _ _ _ => [];
     elementIsTransparent := fun _ _ => false;
     elementHasZeroArea := fun _ _ => false;
     getComputedStyle := fun _ el => Nat.eqb el 6;
     getBgColor := bg_color;
     getFgColor := fg_color |}.

(** The state in which a run starts. *)
Definition initial : state env := mkState (0%nat : World env) parse ∅ [].

(** The state after one evaluation for the deficiency type protan. *)
Definition after (el : nat) (fg bg : Color) (large : bool) (s : state env)
  : state env :=
  snd (runOneType (X := env) el fg bg large "protan" "protanopia" s).

Definition red : Color := rgb 255 0 0.
Definition green : Color := rgb 0 255 0.
Definition olive : Color := rgb 127 127 0.
Definition white : Color := rgb 255 255 255.
Definition black : Color := rgb 0 0 0.

End Demo.

(** ** Variants of the small page *)

Module Pages.

(** The collaborators of [Demo.env] on a page with the given elements,
    where [annotate.label] or [annotate.errorLabel] may be made to throw. *)
Definition env_of (page : list nat) (label_throws errorLabel_throws : bool)
  : externals :=
  {| Elem := nat;
     Style := bool;
     Label := nat;
     Entry := nat;
     World := nat;
     blinder := Demo.confuse;
     colorToString := Demo.show_color;
     isLargeFont := fun large => large;
     calculateContrastRatio := Demo.contrast;
     isLowContrast := Demo.low_contrast;
     toFixed := Demo.fixed;
     titleTemplate := Demo.template "Insufficient contrast: ";
     descriptionTemplate := Demo.template "The contrast of ";
     plugin_error := fun _ _ _ w => (Ok w, S w);
     annotate_label :=
       fun _ _ w =>
         if label_throws then (Throw "label", w) else (Ok w, S w);
     addClass := fun lbl _ w => (Ok lbl, w);
     annotate_errorLabel :=
       fun _ _ _ _ w =>
         if errorLabel_throws then (Throw "errorLabel", w) else (Ok tt, S w);
     select_all := fun _ => page;
     hasDirectTextDescendant := fun _ el => negb (Nat.eqb el 0);
     parents := fun _ el _ => if Nat.eqb el 7 then [0%nat] else [];
     elementIsTransparent := fun _ el => Nat.eqb el 8;
     elementHasZeroArea := fun _ el => Nat.eqb el 9;
     getComputedStyle := fun _ el => Nat.eqb el 6;
     getBgColor := Demo.bg_color;
     getFgColor := Demo.fg_color |}.

(** A page on which nothing is to be checked: an element without text, one
    of the tota11y UI, a transparent one and one without area. *)
Definition blank : externals := env_of [0; 7; 8; 9]%nat false false.

(** Pages on which drawing fails. *)
Definition no_labels : externals := env_of [0; 1; 2]%nat true false.
Definition no_errorLabels : externals := env_of [4; 5]%nat false true.

Definition start (X : externals) (w : World X) : state X :=
  mkState w Demo.parse ∅ [].

End Pages.

(** ** Numbers *)

Lemma ToInt32_zero : ToInt32 (of_Z 0) = 0%Z.
Proof. reflexivity. Qed.

Lemma bitor_zero (x : number) : bitor x (of_Z 0) = of_Z (ToInt32 x).
Proof. unfold bitor. now rewrite ToInt32_zero, Z.lor_0_r. Qed.

Lemma ToInt32_range (x : number) : (- 2 ^ 31 <= ToInt32 x < 2 ^ 31)%Z.
Proof.
  destruct x as [ | negative | q]; simpl; try lia.
  pose proof (Z.mod_pos_bound (Z.quot (Qnum q) (Z.pos (Qden q))) (2 ^ 32))
    as Hmod.
  destruct (Z.leb_spec (2 ^ 31) (Z.quot (Qnum q) (Z.pos (Qden q)) mod 2 ^ 32));
    lia.
Qed.

(** On a finite value in [0, 2^31) the conversion is the floor. *)
Lemma ToInt32_floor (q : Q) :
  (0 <= q)%Q -> (q < inject_Z (2 ^ 31))%Q -> ToInt32 (Finite q) = Qfloor q.
Proof.
  destruct q as [n d]. unfold Qle, Qlt. simpl. intros Hlo Hhi.
  assert (0 <= n)%Z as Hn by lia.
  rewrite Z.quot_div_nonneg by lia.
  assert (0 <= n / Z.pos d < 2 ^ 31)%Z as Hq.
  { split; [apply Z.div_pos; lia | apply Z.div_lt_upper_bound; lia]. }
  rewrite Z.mod_small by lia.
  destruct (Z.leb_spec (2 ^ 31) (n / Z.pos d)); [lia | reflexivity].
Qed.

Lemma Qfloor_0_255 (q : Q) :
  (0 <= q)%Q -> (q < 256)%Q -> (0 <= Qfloor q <= 255)%Z.
Proof.
  destruct q as [n d]. unfold Qle, Qlt. simpl. intros Hlo Hhi.
  split; [apply Z.div_pos; lia | ].
  enough (n / Z.pos d < 256)%Z by lia.
  apply Z.div_lt_upper_bound; lia.
Qed.

Lemma not_channel_0_255 (n : Z) :
  (n < 0 \/ 255 < n)%Z -> ~ channel_0_255 (of_Z n).
Proof.
  intros Hn (q & m & Hq & Hm & Hrange).
  injection Hq as <-. revert Hm. unfold Qeq. simpl. lia.
Qed.

Lemma converted_ToInt32 (x : number) : converted x (of_Z (ToInt32 x)).
Proof.
  split; [reflexivity | ]. split; [apply ToInt32_range | ].
  intros q -> Hlo Hhi.
  assert (ToInt32 (Finite q) = Qfloor q) as ->.
  { apply ToInt32_floor; [exact Hlo | ].
    eapply Qlt_trans; [exact Hhi | reflexivity]. }
  split; [reflexivity | ].
  exists (inject_Z (Qfloor q)), (Qfloor q).
  split; [reflexivity | ]. split; [reflexivity | ].
  now apply Qfloor_0_255.
Qed.

Lemma floored_ToInt32 (x : number) :
  in_transform_range x -> floored x (of_Z (ToInt32 x)).
Proof.
  intros [-> | (q & -> & Hlo & Hhi)].
  - split; [ | split; [reflexivity | discriminate]].
    exists (inject_Z 0), 0%Z. simpl. repeat split; try reflexivity; lia.
  - assert (q < 256)%Q as Hlt.
    { eapply Qle_lt_trans; [exact Hhi | reflexivity]. }
    assert (ToInt32 (Finite q) = Qfloor q) as ->.
    { apply ToInt32_floor; [exact Hlo | ].
      eapply Qlt_trans; [exact Hlt | reflexivity]. }
    split; [ | split; [discriminate | now intros q' [= <-]]].
    exists (inject_Z (Qfloor q)), (Qfloor q).
    split; [reflexivity | ]. split; [reflexivity | ].
    now apply Qfloor_0_255.
Qed.

(** ** The simulation step *)

Section Blind_facts.

Variable blinder : RGB -> string -> bool -> res RGB.

Lemma blind_Ok (c : Color) (d : string) (out : RGB) :
  blinder (mkRGB (red c) (green c) (blue c)) d false = Ok out ->
  blind blinder c d =
    Ok (mkColor (of_Z (ToInt32 (R out))) (of_Z (ToInt32 (G out)))
          (of_Z (ToInt32 (B out))) (alpha c)).
Proof. intros H. unfold blind. rewrite H. now rewrite !bitor_zero. Qed.

Lemma blind_Throw (c : Color) (d e : string) :
  blind blinder c d = Throw e <->
  blinder (mkRGB (red c) (green c) (blue c)) d false = Throw e.
Proof.
  unfold blind.
  destruct (blinder _ d false) as [out | e']; split; congruence.
Qed.

(** Whatever the transform returns, each channel of the result of [blind]
    is its [ToInt32] conversion. *)
Lemma blind_channels_ToInt32 (c : Color) (d : string) (out : RGB) :
  blinder (mkRGB (red c) (green c) (blue c)) d false = Ok out ->
  exists c',
    blind blinder c d = Ok c' /\
    converted (R out) (red c') /\
    converted (G out) (green c') /\
    converted (B out) (blue c').
Proof.
  intros H. eexists. split; [apply blind_Ok, H | ]. simpl.
  split; [apply converted_ToInt32 | ].
  split; apply converted_ToInt32.
Qed.

(** C2: given that the transform returns channels in its range (numbers
    from 0 to 255, or no number), each red, green and blue channel of the
    colour [blind] returns is a whole number from 0 to 255: the floor of
    the transform's channel, so that a fraction is discarded and not
    rounded, and 0 where the transform gave no number. *)
Theorem blind_channels_0_255 (c : Color) (d : string) (out : RGB) :
  blinder (mkRGB (red c) (green c) (blue c)) d false = Ok out ->
  in_transform_range (R out) ->
  in_transform_range (G out) ->
  in_transform_range (B out) ->
  exists c',
    blind blinder c d = Ok c' /\
    floored (R out) (red c') /\
    floored (G out) (green c') /\
    floored (B out) (blue c').
Proof.
  intros H HR HG HB. eexists. split; [apply blind_Ok, H | ]. simpl.
  split; [now apply floored_ToInt32 | ].
  split; now apply floored_ToInt32.
Qed.

(** C7: when the transform returns, [blind] returns a colour whose alpha
    is the alpha of its argument; the red, green and blue it returns come
    from the transform, which is given the three colour channels only, so
    they are the same whatever the alpha. *)
Theorem blind_preserves_alpha (c : Color) (d : string) (out : RGB) :
  blinder (mkRGB (red c) (green c) (blue c)) d false = Ok out ->
  exists c',
    blind blinder c d = Ok c' /\
    alpha c' = alpha c /\
    forall a : number,
      blind blinder (mkColor (red c) (green c) (blue c) a) d =
        Ok (mkColor (red c') (green c') (blue c') a).
Proof.
  intros H. eexists. split; [apply blind_Ok, H | ]. simpl.
  split; [reflexivity | ]. intros a. now rewrite (blind_Ok _ _ out).
Qed.

End Blind_facts.

Lemma blind_channels_0_255_witness :
  exists c',
    blind Demo.confuse (Demo.rgb 255 0 0) "protan" = Ok c' /\
    floored (Finite (255 # 2)) (red c') /\
    floored (Finite (255 # 2)) (green c') /\
    floored (of_Z 0) (blue c').
Proof.
  apply (blind_channels_0_255 Demo.confuse (Demo.rgb 255 0 0) "protan"
           (mkRGB (Finite (255 # 2)) (Finite (255 # 2)) (of_Z 0))).
  - reflexivity.
  - right. exists (255 # 2). unfold Qle. simpl. repeat split; lia.
  - right. exists (255 # 2). unfold Qle. simpl. repeat split; lia.
  - right. exists (inject_Z 0). unfold Qle. simpl. repeat split; lia.
Defined.

Lemma blind_preserves_alpha_witness :
  exists c',
    blind Demo.confuse (mkColor (of_Z 255) (of_Z 0) (of_Z 0) (Finite (1 # 2)))
      "tritan" = Ok c' /\
    alpha c' = Finite (1 # 2) /\
    forall a : number,
      blind Demo.confuse (mkColor (of_Z 255) (of_Z 0) (of_Z 0) a) "tritan" =
        Ok (mkColor (red c') (green c') (blue c') a).
Proof.
  apply (blind_preserves_alpha Demo.confuse
           (mkColor (of_Z 255) (of_Z 0) (of_Z 0) (Finite (1 # 2))) "tritan"
           (mkRGB (Finite (255 # 2)) (Finite (255 # 2)) (of_Z 0))).
  reflexivity.
Defined.

(** C3 as stated fails: a colour with a red of 300, a green of -7 and a
    blue that is not a number is handed to the transform as it is and
    [blind] returns; so it does for a colour whose alpha is not a number,
    and the alpha comes back as it was given. *)
Lemma blind_accepts_invalid_color :
  invalid_color (mkColor (of_Z 300) (of_Z (-7)) NaN (of_Z 1)) /\
  blind passthrough (mkColor (of_Z 300) (of_Z (-7)) NaN (of_Z 1)) "protan" =
    Ok (mkColor (of_Z 300) (of_Z (-7)) (of_Z 0) (of_Z 1)) /\
  blind passthrough (mkColor (of_Z 10) (of_Z 20) (of_Z 30) NaN) "protan" =
    Ok (mkColor (of_Z 10) (of_Z 20) (of_Z 30) NaN).
Proof.
  split.
  - intros ((q & Hq & _ & Hhi) & _). simpl in Hq. injection Hq as <-.
    revert Hhi. unfold Qle. simpl. lia.
  - split; reflexivity.
Qed.

(** ** Evaluations and the registry *)

Ltac unfold_monad :=
  unfold runOneType, addError, bind, ret, lift, perform, get_combination,
    set_combination, get_world, get_parseColor, set_parseColor,
    new_combinations in *.

Ltac case_call :=
  match goal with
  | |- context [annotate_label ?X ?el ?t ?w] =>
      destruct (annotate_label X el t w) as [[? | ?] ?] eqn:?
  | |- context [addClass ?X ?l ?c ?w] =>
      destruct (addClass X l c w) as [[? | ?] ?] eqn:?
  | |- context [plugin_error ?X ?t ?d ?el ?w] =>
      destruct (plugin_error X t d el w) as [[? | ?] ?] eqn:?
  | |- context [annotate_errorLabel ?X ?el ?t ?m ?v ?w] =>
      destruct (annotate_errorLabel X el t m v w) as [[[] | ?] ?] eqn:?
  end; simpl.

(** A computation whose result is [Ok a] ends in its second component. *)
Lemma completes_eq {X : externals} {A : Type} (m : M X A) (s : state X)
    (a : A) :
  fst (m s) = Ok a -> m s = (Ok a, snd (m s)).
Proof. destruct (m s) as [r s']. simpl. now intros ->. Qed.

Lemma step_snd {X : externals} (el : Elem X) (fg bg : Color)
    (style : Style X) (b bn : string) (s : state X) :
  step s (snd (runOneType el fg bg style b bn s)).
Proof.
  destruct (runOneType el fg bg style b bn s) as [r s'] eqn:Hrun.
  econstructor. exact Hrun.
Qed.

Section Evaluation.

Variable X : externals.

Implicit Types (s : state X) (el : Elem X) (style : Style X).
Implicit Types (fg bg : Color) (key b bn : string).

Lemma stored_insert s key key' (v : value (Entry X)) w p c :
  stored (mkState w p (<[key := v]> (combinations s)) c) key' =
    if decide (key = key') then v else stored s key'.
Proof.
  unfold stored. simpl. rewrite lookup_insert.
  now destruct (decide (key = key')).
Qed.

(** An evaluation whose sample passes and whose key is seen does nothing. *)
Lemma runOneType_pass_seen el fg bg fg' bg' style b bn s :
  blind (blinder X) fg b = Ok fg' ->
  blind (blinder X) bg b = Ok bg' ->
  isLowContrast X (ratio_text X fg' bg') style = false ->
  seen s (key_of X fg bg b (requiredRatio_of style)) ->
  runOneType el fg bg style b bn s = (Ok tt, s).
Proof.
  unfold ratio_text, seen, stored. intros Hfg Hbg Hpass Hseen.
  unfold_monad. rewrite Hfg, Hbg, Hpass. simpl. now rewrite Hseen.
Qed.

(** An evaluation whose sample fails and whose key is seen only draws the
    error label, with the stored value. *)
Lemma runOneType_fail_seen el fg bg fg' bg' style b bn s :
  blind (blinder X) fg b = Ok fg' ->
  blind (blinder X) bg b = Ok bg' ->
  isLowContrast X (ratio_text X fg' bg') style = true ->
  seen s (key_of X fg bg b (requiredRatio_of style)) ->
  runOneType el fg bg style b bn s =
    perform
      (CallErrorLabel el (ratio_text X fg' bg') insufficient_message
         (stored s (key_of X fg bg b (requiredRatio_of style))))
      (annotate_errorLabel X el (ratio_text X fg' bg') insufficient_message
         (stored s (key_of X fg bg b (requiredRatio_of style)))) s.
Proof.
  unfold ratio_text, seen, stored. intros Hfg Hbg Hfail Hseen.
  unfold_monad. rewrite Hfg, Hbg, Hfail. simpl. now rewrite Hseen.
Qed.

(** The first passing occurrence of a key, when it completes. *)
Lemma runOneType_pass_unseen el fg bg fg' bg' style b bn s s' :
  blind (blinder X) fg b = Ok fg' ->
  blind (blinder X) bg b = Ok bg' ->
  isLowContrast X (ratio_text X fg' bg') style = false ->
  ~ seen s (key_of X fg bg b (requiredRatio_of style)) ->
  runOneType el fg bg style b bn s = (Ok tt, s') ->
  exists lbl,
    calls s' =
      calls s ++ [CallLabel el (ratio_text X fg' bg');
                  CallAddClass lbl "tota11y-label-success"] /\
    combinations s' =
      <[key_of X fg bg b (requiredRatio_of style) := VBool true]>
        (combinations s) /\
    parseColor s' = parseColor s.
Proof.
  unfold ratio_text, seen, stored. intros Hfg Hbg Hpass Hseen.
  unfold_monad. rewrite Hfg, Hbg, Hpass. simpl.
  destruct (ToBoolean _); [congruence | ]. simpl.
  repeat case_call; intros [= <-]. simpl.
  eexists. rewrite <- app_assoc. simpl. eauto.
Qed.

(** The first failing occurrence of a key, when it completes. *)
Lemma runOneType_fail_unseen el fg bg fg' bg' style b bn s s' :
  blind (blinder X) fg b = Ok fg' ->
  blind (blinder X) bg b = Ok bg' ->
  isLowContrast X (ratio_text X fg' bg') style = true ->
  ~ seen s (key_of X fg bg b (requiredRatio_of style)) ->
  runOneType el fg bg style b bn s = (Ok tt, s') ->
  exists title description entry,
    calls s' =
      calls s ++ [CallError title description el;
                  CallErrorLabel el (ratio_text X fg' bg') insufficient_message
                    (VObject entry)] /\
    combinations s' =
      <[key_of X fg bg b (requiredRatio_of style) := VObject entry]>
        (combinations s) /\
    parseColor s' = parseColor s.
Proof.
  unfold ratio_text, seen, stored. intros Hfg Hbg Hfail Hseen.
  unfold_monad. rewrite Hfg, Hbg, Hfail. simpl.
  destruct (ToBoolean _); [congruence | ]. simpl.
  case_call; [ | intros [=]].
  rewrite lookup_insert_eq. simpl.
  case_call; intros [= <-]. simpl.
  do 3 eexists. rewrite <- app_assoc. simpl. eauto.
Qed.

(** Whatever an evaluation does, it leaves the entries of seen keys and
    the colour parser alone. *)
Lemma step_preserves s s' :
  step s s' ->
  parseColor s' = parseColor s /\
  forall key, seen s key -> combinations s' !! key = combinations s !! key.
Proof.
  intros [el fg bg style b bn s0 r s1 Hrun]. revert Hrun.
  unfold seen, stored. unfold_monad.
  destruct (blind (blinder X) fg b) as [fg' | e]; simpl;
    [ | intros [= <- <-]; auto].
  destruct (blind (blinder X) bg b) as [bg' | e]; simpl;
    [ | intros [= <- <-]; auto].
  set (key0 := key_of X fg bg b (requiredRatio_of style)).
  destruct (isLowContrast X _ style); simpl;
    destruct (ToBoolean (default VUndefined (combinations s0 !! key0)))
      eqn:Hkey0; simpl.
  - case_call; intros [= <- <-]; simpl; auto.
  - case_call; [ | intros [= <- <-]; simpl; auto].
    rewrite lookup_insert_eq. simpl.
    case_call; intros [= <- <-]; simpl; (split; [reflexivity | ]);
      intros key Hseen; apply lookup_insert_ne; congruence.
  - intros [= <- <-]; auto.
  - case_call; [ | intros [= <- <-]; simpl; auto].
    case_call; intros [= <- <-]; simpl; auto.
    split; [reflexivity | ].
    intros key Hseen; apply lookup_insert_ne; congruence.
Qed.

Lemma steps_preserve s s' :
  steps s s' ->
  parseColor s' = parseColor s /\
  forall key, seen s key -> stored s' key = stored s key.
Proof.
  induction 1 as [s | s s1 s2 Hstep _ [IHp IHk]].
  - auto.
  - destruct (step_preserves _ _ Hstep) as [Hp Hk].
    split; [congruence | ].
    intros key Hseen.
    assert (stored s1 key = stored s key) as H1.
    { unfold stored. now rewrite Hk. }
    rewrite IHk; [exact H1 | ]. unfold seen. now rewrite H1.
Qed.

End Evaluation.

(** ** Keys *)

Lemma append_nil_l (x : string) : "" +:+ x = x.
Proof. reflexivity. Qed.

Lemma append_cons (a : ascii) (s x : string) :
  String a s +:+ x = String a (s +:+ x).
Proof. reflexivity. Qed.



(** Two texts that agree and whose heads have no slash split at the same
    first slash. *)
Lemma split_at_slash (s1 s2 r1 r2 : string) :
  no_slash s1 = true -> no_slash s2 = true ->
  s1 +:+ "/" +:+ r1 = s2 +:+ "/" +:+ r2 -> s1 = s2 /\ r1 = r2.
Proof.
  revert s2. induction s1 as [ | a s1 IH]; intros [ | a' s2] H1 H2 H;
    repeat (rewrite ?append_nil_l, ?append_cons in H); simpl in H1, H2.
  - injection H as ->. auto.
  - injection H as <- _. discriminate.
  - injection H as -> _. discriminate.
  - injection H as -> H.
    apply andb_prop in H1 as [_ H1]. apply andb_prop in H2 as [_ H2].
    destruct (IH s2 H1 H2 H) as [-> ->]. auto.
Qed.


Lemma no_slash_append_slash (s r : string) :
  no_slash (s +:+ String "/"%char r) = false.
Proof.
  induction s as [ | a s IH].
  - reflexivity.
  - rewrite append_cons. simpl. rewrite IH. apply andb_false_r.
Qed.

(** Every key has a slash in it, so it is none of the names an object
    inherits from [Object.prototype]. *)
Lemma key_of_has_slash (X : externals) (fg bg : Color) (b r : string) :
  no_slash (key_of X fg bg b r) = false.
Proof. unfold key_of. apply no_slash_append_slash. Qed.

(** ** The run *)

Section Run_facts.

Variable X : externals.

Lemma keeps_ret {A : Type} (a : A) : keeps_parseColor (@ret X A a).
Proof. intros s r s' [= <- <-]. reflexivity. Qed.

Lemma keeps_bind {A B : Type} (m : M X A) (k : A -> M X B) :
  keeps_parseColor m -> (forall a, keeps_parseColor (k a)) ->
  keeps_parseColor (bind m k).
Proof.
  intros Hm Hk s r s'. unfold bind.
  destruct (m s) as [[a | e] s1] eqn:Hms.
  - intros Hks. rewrite (Hk a _ _ _ Hks). eapply Hm, Hms.
  - intros [= <- <-]. eapply Hm, Hms.
Qed.

Lemma keeps_runOneType el fg bg style b bn :
  keeps_parseColor (@runOneType X el fg bg style b bn).
Proof.
  intros s r s' Hrun.
  apply (step_preserves X s s'). econstructor. exact Hrun.
Qed.

Lemma keeps_forEach {A : Type} (l : list A) (body : A -> M X unit) :
  (forall x, keeps_parseColor (body x)) -> keeps_parseColor (forEach l body).
Proof.
  intros Hbody. induction l as [ | x l IH]; simpl.
  - apply keeps_ret.
  - apply keeps_bind; [apply Hbody | intros _; exact IH].
Qed.

Lemma keeps_each_element el : keeps_parseColor (@each_element X el).
Proof.
  unfold each_element. apply keeps_bind.
  { intros s r s' [= <- <-]. reflexivity. }
  intros w.
  destruct (negb (hasDirectTextDescendant X w el)); [apply keeps_ret | ].
  destruct (0 <? length (parents X w el ".tota11y"))%nat;
    [apply keeps_ret | ].
  destruct (elementIsTransparent X w el || elementHasZeroArea X w el);
    [apply keeps_ret | ].
  apply keeps_bind.
  { intros s r s' [= <- <-]. reflexivity. }
  intros parse. apply keeps_forEach. intros [b bn].
  apply keeps_runOneType.
Qed.

Lemma keeps_element_loop : keeps_parseColor (@element_loop X).
Proof.
  unfold element_loop. apply keeps_bind.
  { intros s r s' [= <- <-]. reflexivity. }
  intros w. apply keeps_forEach, keeps_each_element.
Qed.

(** [run] is the element loop between the installation of the proxy and
    its removal; an exception in the loop skips the removal. *)
Lemma run_unfold (s : state X) :
  run s =
    match element_loop
            (mkState (world s) (parseColor_proxy (parseColor s)) ∅ (calls s))
    with
    | (Ok _, s1) =>
        (Ok tt,
         mkState (world s1) (parseColor s) (combinations s1) (calls s1))
    | (Throw e, s1) => (Throw e, s1)
    end.
Proof.
  unfold run. unfold_monad. simpl.
  now destruct (element_loop _) as [[[] | e] s1].
Qed.

End Run_facts.

(** ** The claims about evaluations *)

(** C6, as amended: the decision of the required ratio has two values
    whenever [isLargeFont] returns: "3.0" when what it returns is truthy
    and "4.5" for every other value, among them [undefined], [null],
    [false], 0, no number and the empty text.  It fails exactly when
    [isLargeFont] throws, with the same error. *)
Theorem requiredRatio_decision_spec {Style : Type}
    (isLargeFont : Style -> res jsvalue) (style : Style) :
  (forall large,
      isLargeFont style = Ok large ->
      requiredRatio_decision isLargeFont style =
        Ok (if truthy large then "3.0" else "4.5")) /\
  (forall large,
      isLargeFont style = Ok large ->
      In large
        [JUndefined; JNull; JBoolean false; JNumber (of_Z 0); JNumber NaN;
         JString ""] ->
      requiredRatio_decision isLargeFont style = Ok "4.5") /\
  (forall r,
      requiredRatio_decision isLargeFont style = Ok r ->
      r = "3.0" \/ r = "4.5") /\
  (forall e,
      requiredRatio_decision isLargeFont style = Throw e <->
      isLargeFont style = Throw e).
Proof.
  unfold requiredRatio_decision.
  destruct (isLargeFont style) as [large | e0].
  - split; [now intros ? [= <-] | ].
    split.
    { intros ? [= <-] Hin. simpl in Hin.
      repeat destruct Hin as [<- | Hin]; try reflexivity. contradiction. }
    split; [ | split; discriminate].
    intros r [= <-]. destruct (truthy large); auto.
  - split; [discriminate | ]. split; [discriminate | ].
    split; [discriminate | ]. intros e. split; congruence.
Qed.

(** C6 as stated fails: on a style without font size the classifier throws
    and so does the decision; no "4.5" is returned by default. *)
Lemma requiredRatio_fails_without_fontSize :
  requiredRatio_decision Typography.classify
    (Typography.mkTextStyle None (Some "bold")) =
    Throw "TypeError: fontSize is undefined" /\
  requiredRatio_decision Typography.classify
    (Typography.mkTextStyle None (Some "bold")) <> Ok "4.5" /\
  requiredRatio_decision Typography.classify
    (Typography.mkTextStyle (Some "19px") (Some "bold")) = Ok "3.0" /\
  requiredRatio_decision Typography.classify
    (Typography.mkTextStyle (Some "19px") None) = Ok "4.5".
Proof. repeat split; try reflexivity. discriminate. Qed.

(** Where [isLargeFont] returns a boolean, as the collaborators of an
    evaluation do, the decision is the required ratio of [runOneType]. *)
Lemma requiredRatio_decision_boolean (X : externals) (style : Style X) :
  requiredRatio_decision (fun st => Ok (JBoolean (isLargeFont X st))) style =
    Ok (requiredRatio_of style).
Proof. reflexivity. Qed.

Section Claims.

Variable X : externals.

Implicit Types (s : state X) (el : Elem X) (style : Style X).
Implicit Types (fg bg : Color) (b bn : string).

(** C3, as amended: [blind] validates no colour.  Whatever the channels
    of the colour it is given, it hands the red, green and blue as they are
    to the transform, throws exactly when the transform throws, with the
    transform's error, and returns when the transform returns, with the
    alpha as it was given. *)
Theorem no_color_validation (c : Color) (d : string) :
  (forall e,
      blind (blinder X) c d = Throw e <->
      blinder X (mkRGB (red c) (green c) (blue c)) d false = Throw e) /\
  (forall out,
      blinder X (mkRGB (red c) (green c) (blue c)) d false = Ok out ->
      exists c', blind (blinder X) c d = Ok c' /\ alpha c' = alpha c).
Proof.
  split; [intros e; apply blind_Throw | ].
  intros out H. eexists. split; [apply blind_Ok, H | reflexivity].
Qed.

(** C1: a failing sample whose key is seen makes no report: the
    evaluation is the one call of [annotate.errorLabel], with the value the
    registry holds.  When a failing sample meets its key unseen and the
    evaluation completes, [error] is called once and its entry is stored;
    after any further evaluations a failing sample with this key makes no
    second report and its error label carries the entry of the first
    occurrence. *)
Theorem failing_sample_reported_once el fg bg fg' bg' style b bn :
  blind (blinder X) fg b = Ok fg' ->
  blind (blinder X) bg b = Ok bg' ->
  isLowContrast X (ratio_text X fg' bg') style = true ->
  (forall s,
      seen s (key_of X fg bg b (requiredRatio_of style)) ->
      runOneType el fg bg style b bn s =
        perform
          (CallErrorLabel el (ratio_text X fg' bg') insufficient_message
             (stored s (key_of X fg bg b (requiredRatio_of style))))
          (annotate_errorLabel X el (ratio_text X fg' bg')
             insufficient_message
             (stored s (key_of X fg bg b (requiredRatio_of style)))) s) /\
  (forall s0 s1 s2 el2 fg2 bg2 fg2' bg2' style2 b2 bn2 r s3,
      ~ seen s0 (key_of X fg bg b (requiredRatio_of style)) ->
      runOneType el fg bg style b bn s0 = (Ok tt, s1) ->
      steps s1 s2 ->
      key_of X fg2 bg2 b2 (requiredRatio_of style2) =
        key_of X fg bg b (requiredRatio_of style) ->
      blind (blinder X) fg2 b2 = Ok fg2' ->
      blind (blinder X) bg2 b2 = Ok bg2' ->
      isLowContrast X (ratio_text X fg2' bg2') style2 = true ->
      runOneType el2 fg2 bg2 style2 b2 bn2 s2 = (r, s3) ->
      exists title description entry,
        calls s1 =
          calls s0 ++
          [CallError title description el;
           CallErrorLabel el (ratio_text X fg' bg') insufficient_message
             (VObject entry)] /\
        combinations s1 =
          <[key_of X fg bg b (requiredRatio_of style) := VObject entry]>
            (combinations s0) /\
        calls s3 =
          calls s2 ++
          [CallErrorLabel el2 (ratio_text X fg2' bg2') insufficient_message
             (VObject entry)] /\
        combinations s3 = combinations s2 /\
        stored s3 (key_of X fg bg b (requiredRatio_of style)) =
          VObject entry).
Proof.
  intros Hfg Hbg Hfail. split.
  - intros s Hseen. now apply runOneType_fail_seen.
  - intros s0 s1 s2 el2 fg2 bg2 fg2' bg2' style2 b2 bn2 r s3
      Hunseen Hfirst Hsteps Hkey Hfg2 Hbg2 Hfail2 Hsecond.
    destruct (runOneType_fail_unseen X _ _ _ _ _ _ _ _ _ _
                Hfg Hbg Hfail Hunseen Hfirst)
      as (title & description & entry & Hcalls & Hcomb & _).
    exists title, description, entry.
    assert (stored s1 (key_of X fg bg b (requiredRatio_of style)) =
              VObject entry) as Hs1.
    { unfold stored. rewrite Hcomb, lookup_insert_eq. reflexivity. }
    assert (seen s1 (key_of X fg bg b (requiredRatio_of style))) as Hseen1.
    { unfold seen. now rewrite Hs1. }
    destruct (steps_preserve X _ _ Hsteps) as [_ Hkeep].
    specialize (Hkeep _ Hseen1). rewrite Hs1 in Hkeep.
    assert (seen s2 (key_of X fg2 bg2 b2 (requiredRatio_of style2)))
      as Hseen2.
    { rewrite Hkey. unfold seen. now rewrite Hkeep. }
    rewrite (runOneType_fail_seen X _ _ _ _ _ _ _ _ _
               Hfg2 Hbg2 Hfail2 Hseen2) in Hsecond.
    rewrite Hkey, Hkeep in Hsecond. unfold perform in Hsecond.
    destruct (annotate_errorLabel X _ _ _ _ _) as [r' w'].
    injection Hsecond as <- <-. simpl.
    repeat split; try assumption.
Qed.

(** C5: a passing sample whose key is seen does nothing at all: no call
    is made and the state is returned as it was.  When a passing sample
    meets its key unseen and the evaluation completes, [annotate.label] is
    called once, the label gets its class, and the key is marked with
    [true]; after any further evaluations every passing sample with this
    key does nothing. *)
Theorem passing_sample_labelled_once el fg bg fg' bg' style b bn :
  blind (blinder X) fg b = Ok fg' ->
  blind (blinder X) bg b = Ok bg' ->
  isLowContrast X (ratio_text X fg' bg') style = false ->
  (forall s,
      seen s (key_of X fg bg b (requiredRatio_of style)) ->
      runOneType el fg bg style b bn s = (Ok tt, s)) /\
  (forall s0 s1,
      ~ seen s0 (key_of X fg bg b (requiredRatio_of style)) ->
      runOneType el fg bg style b bn s0 = (Ok tt, s1) ->
      (exists lbl,
          calls s1 =
            calls s0 ++
            [CallLabel el (ratio_text X fg' bg');
             CallAddClass lbl "tota11y-label-success"]) /\
      combinations s1 =
        <[key_of X fg bg b (requiredRatio_of style) := VBool true]>
          (combinations s0) /\
      seen s1 (key_of X fg bg b (requiredRatio_of style)) /\
      forall s2 el2 fg2 bg2 fg2' bg2' style2 b2 bn2,
        steps s1 s2 ->
        key_of X fg2 bg2 b2 (requiredRatio_of style2) =
          key_of X fg bg b (requiredRatio_of style) ->
        blind (blinder X) fg2 b2 = Ok fg2' ->
        blind (blinder X) bg2 b2 = Ok bg2' ->
        isLowContrast X (ratio_text X fg2' bg2') style2 = false ->
        runOneType el2 fg2 bg2 style2 b2 bn2 s2 = (Ok tt, s2)).
Proof.
  intros Hfg Hbg Hpass. split.
  - intros s Hseen. now apply (runOneType_pass_seen X el fg bg fg' bg').
  - intros s0 s1 Hunseen Hfirst.
    destruct (runOneType_pass_unseen X _ _ _ _ _ _ _ _ _ _
                Hfg Hbg Hpass Hunseen Hfirst)
      as (lbl & Hcalls & Hcomb & _).
    assert (seen s1 (key_of X fg bg b (requiredRatio_of style))) as Hseen1.
    { unfold seen, stored. now rewrite Hcomb, lookup_insert_eq. }
    split; [now exists lbl | ]. split; [exact Hcomb | ].
    split; [exact Hseen1 | ].
    intros s2 el2 fg2 bg2 fg2' bg2' style2 b2 bn2 Hsteps Hkey Hfg2 Hbg2 Hpass2.
    apply (runOneType_pass_seen X el2 fg2 bg2 fg2' bg2'); try assumption.
    rewrite Hkey.
    destruct (steps_preserve X _ _ Hsteps) as [_ Hkeep].
    unfold seen. now rewrite (Hkeep _ Hseen1).
Qed.


(** C10: when [run] completes, [axs.utils.parseColor] is again the
    function it was before.  In between, the element loop ran with an
    empty registry and with the proxy in the slot, which stayed there
    throughout; the proxy answers the text transparent with the colour
    (0, 0, 0, 0) and hands every other text to the saved function. *)
Theorem run_restores_parseColor (s s' : state X) :
  run s = (Ok tt, s') ->
  parseColor_proxy (parseColor s) "transparent" =
    Some (mkColor (of_Z 0) (of_Z 0) (of_Z 0) (of_Z 0)) /\
  (forall colorString,
      colorString <> "transparent" ->
      parseColor_proxy (parseColor s) colorString =
        parseColor s colorString) /\
  (exists s1,
      element_loop
        (mkState (world s) (parseColor_proxy (parseColor s)) ∅ (calls s)) =
        (Ok tt, s1) /\
      parseColor s1 = parseColor_proxy (parseColor s) /\
      s' = mkState (world s1) (parseColor s) (combinations s1) (calls s1)) /\
  parseColor s' = parseColor s.
Proof.
  rewrite run_unfold.
  destruct (element_loop _) as [[[] | e] s1] eqn:Hloop; [ | discriminate].
  intros [= <-].
  split; [reflexivity | ].
  split.
  { intros colorString Hne. unfold parseColor_proxy.
    now destruct (String.eqb_spec colorString "transparent"). }
  split; [ | reflexivity].
  exists s1. split; [reflexivity | ]. split; [ | reflexivity].
  apply (keeps_element_loop X _ _ _ Hloop).
Qed.

(** A run that the loop aborts leaves the proxy in the slot. *)
Lemma run_throw_keeps_proxy (s s' : state X) (e : string) :
  run s = (Throw e, s') ->
  parseColor s' = parseColor_proxy (parseColor s).
Proof.
  rewrite run_unfold.
  destruct (element_loop _) as [[[] | e'] s1] eqn:Hloop; [discriminate | ].
  intros [= <- <-]. apply (keeps_element_loop X _ _ _ Hloop).
Qed.

End Claims.

(** ** The statements at work on the small page *)

Lemma after_completes (el : nat) (fg bg : Color) (large : bool)
    (s : state Demo.env) :
  fst (runOneType (X := Demo.env) el fg bg large "protan" "protanopia" s) =
    Ok tt ->
  runOneType (X := Demo.env) el fg bg large "protan" "protanopia" s =
    (Ok tt, Demo.after el fg bg large s).
Proof. apply completes_eq. Qed.

Lemma step_after (el : nat) (fg bg : Color) (large : bool)
    (s : state Demo.env) :
  step s (Demo.after el fg bg large s).
Proof. apply step_snd. Qed.

Lemma failing_sample_reported_once_witness :
  exists (title description : string) (entry : Entry Demo.env),
    calls (Demo.after 4 Demo.red Demo.green false Demo.initial) =
      calls Demo.initial ++
      [@CallError Demo.env title description 4%nat;
       @CallErrorLabel Demo.env 4%nat
         (ratio_text Demo.env Demo.olive Demo.olive) insufficient_message
         (VObject entry)] /\
    combinations (Demo.after 4 Demo.red Demo.green false Demo.initial) =
      <[key_of Demo.env Demo.red Demo.green "protan"
          (@requiredRatio_of Demo.env false) := VObject entry]>
        (combinations Demo.initial) /\
    calls
      (Demo.after 5 Demo.red Demo.green false
         (Demo.after 2 Demo.white Demo.black false
            (Demo.after 4 Demo.red Demo.green false Demo.initial))) =
      calls
        (Demo.after 2 Demo.white Demo.black false
           (Demo.after 4 Demo.red Demo.green false Demo.initial)) ++
      [@CallErrorLabel Demo.env 5%nat
         (ratio_text Demo.env Demo.olive Demo.olive) insufficient_message
         (VObject entry)] /\
    combinations
      (Demo.after 5 Demo.red Demo.green false
         (Demo.after 2 Demo.white Demo.black false
            (Demo.after 4 Demo.red Demo.green false Demo.initial))) =
      combinations
        (Demo.after 2 Demo.white Demo.black false
           (Demo.after 4 Demo.red Demo.green false Demo.initial)) /\
    stored
      (Demo.after 5 Demo.red Demo.green false
         (Demo.after 2 Demo.white Demo.black false
            (Demo.after 4 Demo.red Demo.green false Demo.initial)))
      (key_of Demo.env Demo.red Demo.green "protan"
         (@requiredRatio_of Demo.env false)) = VObject entry.
Proof.
  destruct
    (failing_sample_reported_once Demo.env 4%nat Demo.red Demo.green
       Demo.olive Demo.olive false "protan" "protanopia")
    as [_ Htwice]; [vm_compute; reflexivity .. | ].
  apply
    (Htwice Demo.initial
       (Demo.after 4 Demo.red Demo.green false Demo.initial)
       (Demo.after 2 Demo.white Demo.black false
          (Demo.after 4 Demo.red Demo.green false Demo.initial))
       5%nat Demo.red Demo.green Demo.olive Demo.olive false
       "protan" "protanopia" (Ok tt)
       (Demo.after 5 Demo.red Demo.green false
          (Demo.after 2 Demo.white Demo.black false
             (Demo.after 4 Demo.red Demo.green false Demo.initial)))).
  - vm_compute. discriminate.
  - apply after_completes. vm_compute. reflexivity.
  - apply rtc_once, step_after.
  - reflexivity.
  - vm_compute. reflexivity.
  - vm_compute. reflexivity.
  - vm_compute. reflexivity.
  - apply after_completes. vm_compute. reflexivity.
Defined.

Lemma passing_sample_labelled_once_witness :
  (exists lbl : Label Demo.env,
      calls (Demo.after 2 Demo.white Demo.black false Demo.initial) =
        calls Demo.initial ++
        [@CallLabel Demo.env 2%nat
           (ratio_text Demo.env Demo.white Demo.black);
         CallAddClass lbl "tota11y-label-success"]) /\
  combinations (Demo.after 2 Demo.white Demo.black false Demo.initial) =
    <[key_of Demo.env Demo.white Demo.black "protan"
        (@requiredRatio_of Demo.env false) := VBool true]>
      (combinations Demo.initial) /\
  seen (Demo.after 2 Demo.white Demo.black false Demo.initial)
    (key_of Demo.env Demo.white Demo.black "protan"
       (@requiredRatio_of Demo.env false)) /\
  runOneType (X := Demo.env) 3%nat Demo.white Demo.black false
    "protan" "protanopia"
    (Demo.after 4 Demo.red Demo.green false
       (Demo.after 2 Demo.white Demo.black false Demo.initial)) =
    (Ok tt,
     Demo.after 4 Demo.red Demo.green false
       (Demo.after 2 Demo.white Demo.black false Demo.initial)).
Proof.
  destruct
    (passing_sample_labelled_once Demo.env 2%nat Demo.white Demo.black
       Demo.white Demo.black false "protan" "protanopia")
    as [_ Hfirst]; [vm_compute; reflexivity .. | ].
  destruct
    (Hfirst Demo.initial
       (Demo.after 2 Demo.white Demo.black false Demo.initial))
    as (Hlabel & Hcomb & Hseen & Hlater).
  - vm_compute. discriminate.
  - apply after_completes. vm_compute. reflexivity.
  - split; [exact Hlabel | ]. split; [exact Hcomb | ].
    split; [exact Hseen | ].
    apply (Hlater _ 3%nat Demo.white Demo.black Demo.white Demo.black).
    + apply rtc_once, step_after.
    + reflexivity.
    + vm_compute. reflexivity.
    + vm_compute. reflexivity.
    + vm_compute. reflexivity.
Defined.



Lemma run_restores_parseColor_witness :
  parseColor_proxy Demo.parse "transparent" =
    Some (mkColor (of_Z 0) (of_Z 0) (of_Z 0) (of_Z 0)) /\
  (forall colorString,
      colorString <> "transparent" ->
      parseColor_proxy Demo.parse colorString =
        Demo.parse colorString) /\
  (exists s1 : state Demo.env,
      element_loop
        (mkState (world Demo.initial) (parseColor_proxy Demo.parse) ∅
           (calls Demo.initial)) = (Ok tt, s1) /\
      parseColor s1 = parseColor_proxy Demo.parse /\
      snd (run Demo.initial) =
        mkState (world s1) Demo.parse (combinations s1) (calls s1)) /\
  parseColor (snd (run Demo.initial)) = Demo.parse.
Proof.
  apply (run_restores_parseColor Demo.env Demo.initial
           (snd (run Demo.initial))).
  apply (completes_eq run Demo.initial tt). vm_compute. reflexivity.
Defined.

(** ** More on the conversion of channels *)

Lemma ToInt32_Finite (q : Q) :
  ToInt32 (Finite q) =
    (if (2 ^ 31 <=? Z.quot (Qnum q) (Z.pos (Qden q)) mod 2 ^ 32)%Z
     then Z.quot (Qnum q) (Z.pos (Qden q)) mod 2 ^ 32 - 2 ^ 32
     else Z.quot (Qnum q) (Z.pos (Qden q)) mod 2 ^ 32)%Z.
Proof. reflexivity. Qed.

(** A truncation that fits in 32 signed bits is left as it is. *)
Lemma ToInt32_small (q : Q) :
  (- 2 ^ 31 <= Z.quot (Qnum q) (Z.pos (Qden q)) < 2 ^ 31)%Z ->
  ToInt32 (Finite q) = Z.quot (Qnum q) (Z.pos (Qden q)).
Proof.
  rewrite ToInt32_Finite.
  generalize (Z.quot (Qnum q) (Z.pos (Qden q))). intros v Hv.
  destruct (Z.leb_spec (2 ^ 31) (v mod 2 ^ 32));
    Z.div_mod_to_equations; lia.
Qed.

Lemma ToInt32_of_Z (n : Z) :
  (- 2 ^ 31 <= n < 2 ^ 31)%Z -> ToInt32 (of_Z n) = n.
Proof.
  intros Hn. unfold of_Z. rewrite ToInt32_small; simpl; rewrite Z.quot_1_r;
    [reflexivity | exact Hn].
Qed.

Section More_blind_facts.

Variable blinder : RGB -> string -> bool -> res RGB.

(** X1: when the transform returns whole numbers that fit in 32 signed
    bits (such as the channels 0 to 255), [blind] returns exactly these
    numbers, with the alpha of its argument: the conversion [| 0] changes
    nothing on them. *)
Theorem blind_keeps_integers (c : Color) (d : string) (r g b : Z) :
  (- 2 ^ 31 <= r < 2 ^ 31)%Z ->
  (- 2 ^ 31 <= g < 2 ^ 31)%Z ->
  (- 2 ^ 31 <= b < 2 ^ 31)%Z ->
  blinder (mkRGB (red c) (green c) (blue c)) d false =
    Ok (mkRGB (of_Z r) (of_Z g) (of_Z b)) ->
  blind blinder c d = Ok (mkColor (of_Z r) (of_Z g) (of_Z b) (alpha c)).
Proof.
  intros Hr Hg Hb H. rewrite (blind_Ok blinder c d _ H). cbn [R G B].
  now rewrite !ToInt32_of_Z.
Qed.

(** X2: every channel [blind] returns is a fixed point of the conversion:
    converting it once more gives the same number. *)
Theorem blind_channels_stable (c c' : Color) (d : string) :
  blind blinder c d = Ok c' ->
  bitor (red c') (of_Z 0) = red c' /\
  bitor (green c') (of_Z 0) = green c' /\
  bitor (blue c') (of_Z 0) = blue c'.
Proof.
  unfold blind. destruct (blinder _ d false) as [out | e]; [ | discriminate].
  intros [= <-]. simpl. rewrite !bitor_zero.
  repeat split; f_equal; apply ToInt32_of_Z, ToInt32_range.
Qed.

End More_blind_facts.

(** X3: a negative result of the transform is truncated toward zero, that
    is, rounded up: above -2^31 the conversion of a finite number that is
    not positive is its ceiling. *)
Theorem ToInt32_negative_ceiling (q : Q) :
  (q <= 0)%Q -> (inject_Z (- 2 ^ 31) < q)%Q ->
  ToInt32 (Finite q) = Qceiling q.
Proof.
  destruct q as [n d]. intros Hhi Hlo.
  unfold Qle in Hhi. unfold Qlt in Hlo. simpl in Hhi, Hlo.
  assert (Z.quot n (Z.pos d) = - (- n / Z.pos d))%Z as Hquot.
  { rewrite <- (Z.opp_involutive n) at 1.
    rewrite Z.quot_opp_l by lia.
    rewrite Z.quot_div_nonneg by lia. reflexivity. }
  assert (0 <= - n / Z.pos d < 2 ^ 31)%Z as Hrange.
  { split; [apply Z.div_pos; lia | apply Z.div_lt_upper_bound; lia]. }
  rewrite ToInt32_small; simpl; rewrite Hquot; [reflexivity | lia].
Qed.

(** X4: the conversion wraps around instead of saturating: its result
    differs from the truncated number by a multiple of 2^32, and whole
    numbers that differ by a multiple of 2^32 convert to the same
    result. *)
Theorem ToInt32_wraps :
  (forall q : Q,
      ((ToInt32 (Finite q) - Z.quot (Qnum q) (Z.pos (Qden q))) mod 2 ^ 32 =
       0)%Z) /\
  (forall n k : Z, ToInt32 (of_Z (n + k * 2 ^ 32)) = ToInt32 (of_Z n)).
Proof.
  split.
  - intros q. rewrite ToInt32_Finite.
    generalize (Z.quot (Qnum q) (Z.pos (Qden q))). intros v.
    destruct (Z.leb_spec (2 ^ 31) (v mod 2 ^ 32));
      Z.div_mod_to_equations; lia.
  - intros n k. unfold of_Z. rewrite !ToInt32_Finite. simpl.
    rewrite !Z.quot_1_r. now rewrite Z.mod_add by lia.
Qed.

Lemma blind_keeps_integers_witness :
  blind passthrough (Demo.rgb 12 0 255) "deutan" = Ok (Demo.rgb 12 0 255).
Proof.
  apply (blind_keeps_integers passthrough (Demo.rgb 12 0 255) "deutan"
           12 0 255); [lia | lia | lia | reflexivity].
Defined.

Lemma blind_channels_stable_witness :
  bitor (of_Z 300) (of_Z 0) = of_Z 300 /\
  bitor (of_Z (-5)) (of_Z 0) = of_Z (-5) /\
  bitor (of_Z 0) (of_Z 0) = of_Z 0.
Proof.
  apply (blind_channels_stable overshoot (Demo.rgb 10 20 30)
           (mkColor (of_Z 300) (of_Z (-5)) (of_Z 0) (of_Z 1)) "protan").
  reflexivity.
Defined.

Lemma ToInt32_negative_ceiling_witness :
  ToInt32 (Finite (- 11 # 2)) = (-5)%Z.
Proof.
  apply (ToInt32_negative_ceiling (- 11 # 2)).
  - unfold Qle. simpl. lia.
  - unfold Qlt. simpl. lia.
Defined.

(** ** More on evaluations *)

Section More_evaluation.

Variable X : externals.

Implicit Types (s : state X) (el : Elem X) (style : Style X).
Implicit Types (fg bg : Color) (b bn : string).

Lemma runOneType_fg_throws el fg bg style b bn s e :
  blind (blinder X) fg b = Throw e ->
  runOneType el fg bg style b bn s = (Throw e, s).
Proof. intros Hfg. unfold_monad. now rewrite Hfg. Qed.

Lemma runOneType_bg_throws el fg bg fg' style b bn s e :
  blind (blinder X) fg b = Ok fg' ->
  blind (blinder X) bg b = Throw e ->
  runOneType el fg bg style b bn s = (Throw e, s).
Proof. intros Hfg Hbg. unfold_monad. now rewrite Hfg, Hbg. Qed.

(** What any evaluation, completed or not, does to the state. *)
Lemma runOneType_effect el fg bg style b bn s r s' :
  runOneType el fg bg style b bn s = (r, s') ->
  parseColor s' = parseColor s /\
  (exists new, calls s' = calls s ++ new /\ length new <= 2) /\
  (combinations s' = combinations s \/
   ~ seen s (key_of X fg bg b (requiredRatio_of style)) /\
   ((r = Ok tt /\
     combinations s' =
       <[key_of X fg bg b (requiredRatio_of style) := VBool true]>
         (combinations s)) \/
    exists entry,
      combinations s' =
        <[key_of X fg bg b (requiredRatio_of style) := VObject entry]>
          (combinations s))).
Proof.
  unfold seen, stored. unfold_monad.
  destruct (blind (blinder X) fg b) as [fg' | e]; simpl.
  2: { intros [= <- <-]. split; [reflexivity | ]. split; [ | now left].
       exists []. rewrite app_nil_r. simpl. auto. }
  destruct (blind (blinder X) bg b) as [bg' | e]; simpl.
  2: { intros [= <- <-]. split; [reflexivity | ]. split; [ | now left].
       exists []. rewrite app_nil_r. simpl. auto. }
  set (key0 := key_of X fg bg b (requiredRatio_of style)).
  destruct (isLowContrast X _ style); simpl;
    destruct (ToBoolean (default VUndefined (combinations s !! key0)))
      eqn:Hkey0; simpl.
  - case_call; intros [= <- <-]; simpl;
      (split; [reflexivity | ]); (split; [ | now left]);
      eexists; (split; [reflexivity | simpl; lia]).
  - case_call.
    + rewrite lookup_insert_eq. simpl.
      case_call; intros [= <- <-]; simpl;
        (split; [reflexivity | ]);
        (split;
         [eexists; rewrite <- app_assoc; split; [reflexivity | simpl; lia]
         | right; split; [congruence | right; eauto]]).
    + intros [= <- <-]; simpl.
      split; [reflexivity | ]. split; [ | now left].
      eexists; (split; [reflexivity | simpl; lia]).
  - intros [= <- <-]. split; [reflexivity | ]. split; [ | now left].
    exists []. rewrite app_nil_r. simpl. auto.
  - case_call.
    + case_call; intros [= <- <-]; simpl; (split; [reflexivity | ]).
      * split;
          [eexists; rewrite <- app_assoc; split; [reflexivity | simpl; lia]
          | right; split; [congruence | left; auto]].
      * split; [ | now left].
        eexists; rewrite <- app_assoc; split; [reflexivity | simpl; lia].
    + intros [= <- <-]; simpl.
      split; [reflexivity | ]. split; [ | now left].
      eexists; (split; [reflexivity | simpl; lia]).
Qed.

(** X5: when the transform throws for the foreground, or for the
    background after the foreground went through, the evaluation throws the
    same error, makes no call and leaves the state as it was. *)
Theorem runOneType_blind_throws el fg bg style b bn s e :
  blind (blinder X) fg b = Throw e \/
  (exists fg',
      blind (blinder X) fg b = Ok fg' /\ blind (blinder X) bg b = Throw e) ->
  runOneType el fg bg style b bn s = (Throw e, s).
Proof.
  unfold_monad. intros [Hfg | (fg' & Hfg & Hbg)].
  - now rewrite Hfg.
  - now rewrite Hfg, Hbg.
Qed.

(** X6: an evaluation, whatever its outcome, appends at most two calls to
    the trace, leaves [axs.utils.parseColor] alone and changes the registry
    at no key other than its own. *)
Theorem runOneType_frame el fg bg style b bn s r s' :
  runOneType el fg bg style b bn s = (r, s') ->
  parseColor s' = parseColor s /\
  (exists new, calls s' = calls s ++ new /\ length new <= 2) /\
  forall key,
    key <> key_of X fg bg b (requiredRatio_of style) ->
    combinations s' !! key = combinations s !! key.
Proof.
  intros Hrun.
  destruct (runOneType_effect _ _ _ _ _ _ _ _ _ Hrun) as (Hp & Hcalls & Hreg).
  split; [exact Hp | ]. split; [exact Hcalls | ].
  intros key Hne.
  destruct Hreg as [-> | (_ & [(_ & ->) | (entry & ->)])];
    [reflexivity | | ]; now rewrite lookup_insert_ne.
Qed.

(** X7: a completed evaluation makes one of four call sequences: none (a
    passing sample, key seen); the label and its class (passing, unseen);
    the error label with the stored value (failing, seen); the report and
    the error label with the new entry (failing, unseen). *)
Theorem runOneType_completed_shapes el fg bg style b bn s s' :
  runOneType el fg bg style b bn s = (Ok tt, s') ->
  exists fg' bg',
    blind (blinder X) fg b = Ok fg' /\
    blind (blinder X) bg b = Ok bg' /\
    (isLowContrast X (ratio_text X fg' bg') style = false /\
     seen s (key_of X fg bg b (requiredRatio_of style)) /\ s' = s \/
     isLowContrast X (ratio_text X fg' bg') style = false /\
     ~ seen s (key_of X fg bg b (requiredRatio_of style)) /\
     (exists lbl,
         calls s' =
           calls s ++
           [CallLabel el (ratio_text X fg' bg');
            CallAddClass lbl "tota11y-label-success"]) \/
     isLowContrast X (ratio_text X fg' bg') style = true /\
     seen s (key_of X fg bg b (requiredRatio_of style)) /\
     calls s' =
       calls s ++
       [CallErrorLabel el (ratio_text X fg' bg') insufficient_message
          (stored s (key_of X fg bg b (requiredRatio_of style)))] \/
     isLowContrast X (ratio_text X fg' bg') style = true /\
     ~ seen s (key_of X fg bg b (requiredRatio_of style)) /\
     (exists title description entry,
         calls s' =
           calls s ++
           [CallError title description el;
            CallErrorLabel el (ratio_text X fg' bg') insufficient_message
              (VObject entry)])).
Proof.
  intros Hrun.
  destruct (blind (blinder X) fg b) as [fg' | e] eqn:Hfg.
  2: { rewrite (runOneType_fg_throws el fg bg style b bn s e Hfg) in Hrun.
       discriminate. }
  destruct (blind (blinder X) bg b) as [bg' | e] eqn:Hbg.
  2: { rewrite (runOneType_bg_throws el fg bg fg' style b bn s e Hfg Hbg)
         in Hrun.
       discriminate. }
  exists fg', bg'. split; [reflexivity | ]. split; [reflexivity | ].
  destruct (isLowContrast X (ratio_text X fg' bg') style) eqn:Hlow;
    destruct (ToBoolean (stored s (key_of X fg bg b (requiredRatio_of style))))
      eqn:Hseen.
  - right. right. left. split; [reflexivity | ]. split; [exact Hseen | ].
    rewrite (runOneType_fail_seen X _ _ _ _ _ _ _ _ _ Hfg Hbg Hlow Hseen)
      in Hrun.
    unfold perform in Hrun.
    destruct (annotate_errorLabel X _ _ _ _ _) as [r' w'].
    now injection Hrun as _ <-.
  - right. right. right. split; [reflexivity | ].
    assert (~ seen s (key_of X fg bg b (requiredRatio_of style))) as Hun.
    { unfold seen. congruence. }
    split; [exact Hun | ].
    destruct (runOneType_fail_unseen X _ _ _ _ _ _ _ _ _ _
                Hfg Hbg Hlow Hun Hrun)
      as (title & description & entry & Hcalls & _).
    eauto.
  - left. split; [reflexivity | ]. split; [exact Hseen | ].
    rewrite (runOneType_pass_seen X _ _ _ _ _ _ _ _ _ Hfg Hbg Hlow Hseen)
      in Hrun.
    now injection Hrun as <-.
  - right. left. split; [reflexivity | ].
    assert (~ seen s (key_of X fg bg b (requiredRatio_of style))) as Hun.
    { unfold seen. congruence. }
    split; [exact Hun | ].
    destruct (runOneType_pass_unseen X _ _ _ _ _ _ _ _ _ _
                Hfg Hbg Hlow Hun Hrun)
      as (lbl & Hcalls & _).
    eauto.
Qed.

(** X8: an evaluation that throws never marks its key with [true].  It
    leaves the registry as it was, unless the report had been made and it
    is [annotate.errorLabel] that threw: then the new entry is stored. *)
Theorem runOneType_throw_registry el fg bg style b bn s e s' :
  runOneType el fg bg style b bn s = (Throw e, s') ->
  combinations s' = combinations s \/
  ~ seen s (key_of X fg bg b (requiredRatio_of style)) /\
  exists entry,
    combinations s' =
      <[key_of X fg bg b (requiredRatio_of style) := VObject entry]>
        (combinations s).
Proof.
  intros Hrun.
  destruct (runOneType_effect _ _ _ _ _ _ _ _ _ Hrun)
    as (_ & _ & [Hsame | (Hun & [(Hr & _) | Hentry])]).
  - now left.
  - discriminate.
  - right. auto.
Qed.

(** X9: every completed evaluation of a failing sample ends with the call
    of [annotate.errorLabel] on its element, whether the key was seen or
    not, and the value it passes is truthy and is what the registry holds
    for the key afterwards. *)
Theorem failing_sample_always_labelled el fg bg fg' bg' style b bn s s' :
  blind (blinder X) fg b = Ok fg' ->
  blind (blinder X) bg b = Ok bg' ->
  isLowContrast X (ratio_text X fg' bg') style = true ->
  runOneType el fg bg style b bn s = (Ok tt, s') ->
  exists before v,
    calls s' =
      before ++
      [CallErrorLabel el (ratio_text X fg' bg') insufficient_message v] /\
    ToBoolean v = true /\
    stored s' (key_of X fg bg b (requiredRatio_of style)) = v.
Proof.
  intros Hfg Hbg Hlow Hrun.
  destruct (ToBoolean (stored s (key_of X fg bg b (requiredRatio_of style))))
    eqn:Hseen.
  - rewrite (runOneType_fail_seen X _ _ _ _ _ _ _ _ _ Hfg Hbg Hlow Hseen)
      in Hrun.
    unfold perform in Hrun.
    destruct (annotate_errorLabel X _ _ _ _ _) as [r' w'].
    injection Hrun as _ <-.
    exists (calls s), (stored s (key_of X fg bg b (requiredRatio_of style))).
    split; [reflexivity | ]. split; [exact Hseen | reflexivity].
  - assert (~ seen s (key_of X fg bg b (requiredRatio_of style))) as Hun.
    { unfold seen. congruence. }
    destruct (runOneType_fail_unseen X _ _ _ _ _ _ _ _ _ _
                Hfg Hbg Hlow Hun Hrun)
      as (title & description & entry & Hcalls & Hcomb & _).
    exists (calls s ++ [CallError title description el]), (VObject entry).
    split; [rewrite Hcalls, <- app_assoc; reflexivity | ].
    split; [reflexivity | ].
    unfold stored. now rewrite Hcomb, lookup_insert_eq.
Qed.

(** X10: the report of a failing sample is made from the simulated
    colours: its title and description are the templates applied to the
    texts of the colours [blind] returned, the two-decimal ratio, the
    required ratio and the display name of the deficiency, whereas the
    key under which the entry is stored has the texts of the colours as
    given and the internal name. *)
Theorem report_made_from_simulated_colors
    el fg bg fg' bg' style b bn s s' :
  blind (blinder X) fg b = Ok fg' ->
  blind (blinder X) bg b = Ok bg' ->
  isLowContrast X (ratio_text X fg' bg') style = true ->
  ~ seen s (key_of X fg bg b (requiredRatio_of style)) ->
  runOneType el fg bg style b bn s = (Ok tt, s') ->
  exists entry,
    calls s' =
      calls s ++
      [CallError (titleTemplate X (report_data X fg' bg' style bn))
         (descriptionTemplate X (report_data X fg' bg' style bn)) el;
       CallErrorLabel el (ratio_text X fg' bg') insufficient_message
         (VObject entry)] /\
    combinations s' !!
      (colorToString X fg +:+ "/" +:+ colorToString X bg +:+ "/" +:+
       b +:+ "/" +:+ requiredRatio_of style) = Some (VObject entry).
Proof.
  unfold ratio_text, seen, stored, report_data. intros Hfg Hbg Hfail Hseen.
  unfold_monad. rewrite Hfg, Hbg, Hfail. simpl.
  destruct (ToBoolean _); [congruence | ]. simpl.
  case_call; [ | intros [=]].
  rewrite lookup_insert_eq. simpl.
  case_call; intros [= <-]. simpl.
  eexists. rewrite <- app_assoc. simpl. split; [reflexivity | ].
  apply lookup_insert_eq.
Qed.

End More_evaluation.

(** ** The registry and the trace over many evaluations *)

Lemma first_reports_app {X : externals} (l1 l2 : list (call X)) :
  first_reports (l1 ++ l2) = first_reports l1 + first_reports l2.
Proof. induction l1 as [ | c l1 IH]; simpl; [reflexivity | rewrite IH; lia]. Qed.

Lemma all_truthy_insert {X : externals} (s : state X) (key : string)
    (v : value (Entry X)) w p c :
  all_truthy s -> ToBoolean v = true ->
  all_truthy (mkState w p (<[key := v]> (combinations s)) c).
Proof.
  intros Hs Hv key' v'. simpl. rewrite lookup_insert.
  destruct (decide (key = key')); [now intros [= <-] | apply Hs].
Qed.

Lemma unseen_lookup {X : externals} (s : state X) (key : string) :
  all_truthy s -> ~ seen s key -> combinations s !! key = None.
Proof.
  intros Hs Hun. destruct (combinations s !! key) as [v | ] eqn:Hv;
    [ | reflexivity].
  exfalso. apply Hun. unfold seen, stored. rewrite Hv. simpl. eauto.
Qed.

Lemma throws_eq {X : externals} {A : Type} (m : M X A) (s : state X)
    (e : string) :
  fst (m s) = Throw e -> m s = (Throw e, snd (m s)).
Proof. destruct (m s) as [r s']. simpl. now intros ->. Qed.

Section Registry_facts.

Variable X : externals.

Implicit Types (s : state X) (el : Elem X) (style : Style X).

Lemma step_grows s s' :
  step s s' -> all_truthy s ->
  all_truthy s' /\
  combinations s ⊆ combinations s' /\
  exists new, calls s' = calls s ++ new.
Proof.
  intros [el fg bg style b bn s0 r s1 Hrun] Htruthy.
  destruct (runOneType_effect X _ _ _ _ _ _ _ _ _ Hrun)
    as (_ & (new & Hcalls & _) & Hreg).
  assert (forall v,
             ~ seen s0 (key_of X fg bg b (requiredRatio_of style)) ->
             ToBoolean v = true ->
             combinations s1 =
               <[key_of X fg bg b (requiredRatio_of style) := v]>
                 (combinations s0) ->
             all_truthy s1 /\ combinations s0 ⊆ combinations s1) as Hins.
  { intros v Hun Hv Hcomb. split.
    - intros key' v'. rewrite Hcomb, lookup_insert.
      destruct (decide (_ = key')); [now intros [= <-] | apply Htruthy].
    - rewrite Hcomb. apply insert_subseteq. now apply unseen_lookup. }
  destruct Hreg as [Hsame | (Hun & [(_ & Hcomb) | (entry & Hcomb)])].
  - split; [ | split; [now rewrite Hsame | eauto]].
    intros key v. rewrite Hsame. apply Htruthy.
  - destruct (Hins (VBool true) Hun eq_refl Hcomb). eauto.
  - destruct (Hins (VObject entry) Hun eq_refl Hcomb). eauto.
Qed.

(** X11: over any number of evaluations, starting from a registry whose
    entries are all truthy (an empty one, for instance), the registry only
    grows, every entry present is kept as it is, every entry is truthy, so
    that a key is seen exactly when it has an entry, and the trace is only
    extended. *)
Theorem registry_only_grows s s' :
  steps s s' -> all_truthy s ->
  all_truthy s' /\
  combinations s ⊆ combinations s' /\
  (forall key, seen s' key <-> key ∈ dom (combinations s')) /\
  exists new, calls s' = calls s ++ new.
Proof.
  intros Hsteps Htruthy.
  assert (all_truthy s' /\ combinations s ⊆ combinations s' /\
          exists new, calls s' = calls s ++ new) as (Ht & Hsub & Hcalls).
  { induction Hsteps as [s | s s1 s2 Hstep _ IH].
    - split; [exact Htruthy | ]. split; [reflexivity | ].
      exists []. now rewrite app_nil_r.
    - destruct (step_grows _ _ Hstep Htruthy) as (Ht1 & Hsub1 & new1 & Hc1).
      destruct (IH Ht1) as (Ht2 & Hsub2 & new2 & Hc2).
      split; [exact Ht2 | ]. split; [now transitivity (combinations s1) | ].
      exists (new1 ++ new2). now rewrite Hc2, Hc1, app_assoc. }
  split; [exact Ht | ]. split; [exact Hsub | ]. split; [ | exact Hcalls].
  intros key. rewrite elem_of_dom. unfold seen, stored. split.
  - destruct (combinations s' !! key) as [v | ]; [eauto | discriminate].
  - intros [v Hv]. rewrite Hv. simpl. eauto.
Qed.

(** X12: for given colours, the key tells the deficiency type and the
    required ratio apart: keys with different types (names without a
    slash) or different required ratios are different.  So the three
    evaluations of one element have three different keys, and the same
    colours in a large and in a normal font have different keys. *)
Theorem key_separates_types_and_ratios (fg bg : Color) :
  (forall b1 b2 r1 r2 : string,
      no_slash b1 = true -> no_slash b2 = true ->
      key_of X fg bg b1 r1 = key_of X fg bg b2 r2 -> b1 = b2 /\ r1 = r2) /\
  (forall r : string,
      NoDup (map (fun blindness => key_of X fg bg (fst blindness) r)
               blindnesses)) /\
  (forall b : string, key_of X fg bg b "3.0" <> key_of X fg bg b "4.5").
Proof.
  assert (forall b1 b2 r1 r2 : string,
             key_of X fg bg b1 r1 = key_of X fg bg b2 r2 ->
             b1 +:+ "/" +:+ r1 = b2 +:+ "/" +:+ r2) as Hstrip.
  { unfold key_of. intros b1 b2 r1 r2 H.
    now do 4 apply String.app_inj in H. }
  assert (forall b1 b2 r1 r2 : string,
             no_slash b1 = true -> no_slash b2 = true ->
             key_of X fg bg b1 r1 = key_of X fg bg b2 r2 ->
             b1 = b2 /\ r1 = r2) as Hinj.
  { intros b1 b2 r1 r2 H1 H2 H. apply Hstrip in H.
    now apply split_at_slash in H. }
  split; [exact Hinj | ]. split.
  - intros r. simpl.
    repeat constructor; rewrite ?elem_of_cons, ?elem_of_nil;
      intros H; repeat destruct H as [H | H]; try exact H;
      apply Hinj in H as [H _]; try reflexivity; discriminate.
  - intros b H. apply Hstrip in H. apply String.app_inj in H. discriminate.
Qed.

End Registry_facts.

(** ** More on the run *)

Section More_run_facts.

Variable X : externals.

Lemma tallies_unchanged {A : Type} (m : M X A) :
  (forall s a s', m s = (Ok a, s') -> s' = s) -> tallies m.
Proof.
  intros Hm s a s' Ht Hrun. rewrite (Hm _ _ _ Hrun).
  split; [exact Ht | ]. exists []. rewrite app_nil_r. simpl. split; [reflexivity | lia].
Qed.

Lemma tallies_bind {A B : Type} (m : M X A) (k : A -> M X B) :
  tallies m -> (forall a, tallies (k a)) -> tallies (bind m k).
Proof.
  intros Hm Hk s b s' Ht. unfold bind.
  destruct (m s) as [[a | e] s1] eqn:Hms; [ | discriminate].
  intros Hks.
  destruct (Hm _ _ _ Ht Hms) as (Ht1 & new1 & Hc1 & Hsize1).
  destruct (Hk a _ _ _ Ht1 Hks) as (Ht2 & new2 & Hc2 & Hsize2).
  split; [exact Ht2 | ]. exists (new1 ++ new2).
  rewrite Hc2, Hc1, app_assoc, first_reports_app. split; [reflexivity | lia].
Qed.

Lemma tallies_forEach {A : Type} (l : list A) (body : A -> M X unit) :
  (forall x, tallies (body x)) -> tallies (forEach l body).
Proof.
  intros Hbody. induction l as [ | x l IH]; simpl.
  - apply tallies_unchanged. now intros s a s' [= _ <-].
  - apply tallies_bind; [apply Hbody | intros _; exact IH].
Qed.

Lemma tallies_runOneType el fg bg style b bn :
  tallies (@runOneType X el fg bg style b bn).
Proof.
  intros s [] s' Ht Hrun.
  destruct (blind (blinder X) fg b) as [fg' | e] eqn:Hfg.
  2: { rewrite (runOneType_fg_throws X el fg bg style b bn s e Hfg) in Hrun.
       discriminate. }
  destruct (blind (blinder X) bg b) as [bg' | e] eqn:Hbg.
  2: { rewrite (runOneType_bg_throws X el fg bg fg' style b bn s e Hfg Hbg)
         in Hrun.
       discriminate. }
  destruct (isLowContrast X (ratio_text X fg' bg') style) eqn:Hlow;
    destruct (ToBoolean (stored s (key_of X fg bg b (requiredRatio_of style))))
      eqn:Hseen.
  - rewrite (runOneType_fail_seen X _ _ _ _ _ _ _ _ _ Hfg Hbg Hlow Hseen)
      in Hrun.
    unfold perform in Hrun.
    destruct (annotate_errorLabel X _ _ _ _ _) as [r' w'].
    injection Hrun as _ <-. simpl.
    split; [exact Ht | ]. eexists. split; [reflexivity | simpl; lia].
  - assert (~ seen s (key_of X fg bg b (requiredRatio_of style))) as Hun.
    { unfold seen. congruence. }
    destruct (runOneType_fail_unseen X _ _ _ _ _ _ _ _ _ _
                Hfg Hbg Hlow Hun Hrun) as (t & d & e & Hcalls & Hcomb & _).
    split.
    + intros key v. rewrite Hcomb, lookup_insert.
      destruct (decide (_ = key)); [now intros [= <-] | apply Ht].
    + eexists. split; [exact Hcalls | ].
      rewrite Hcomb, map_size_insert_None by now apply unseen_lookup.
      simpl. lia.
  - rewrite (runOneType_pass_seen X _ _ _ _ _ _ _ _ _ Hfg Hbg Hlow Hseen)
      in Hrun.
    injection Hrun as <-.
    split; [exact Ht | ]. exists []. rewrite app_nil_r. simpl.
    split; [reflexivity | lia].
  - assert (~ seen s (key_of X fg bg b (requiredRatio_of style))) as Hun.
    { unfold seen. congruence. }
    destruct (runOneType_pass_unseen X _ _ _ _ _ _ _ _ _ _
                Hfg Hbg Hlow Hun Hrun) as (lbl & Hcalls & Hcomb & _).
    split.
    + intros key v. rewrite Hcomb, lookup_insert.
      destruct (decide (_ = key)); [now intros [= <-] | apply Ht].
    + eexists. split; [exact Hcalls | ].
      rewrite Hcomb, map_size_insert_None by now apply unseen_lookup.
      simpl. lia.
Qed.

Lemma tallies_each_element el : tallies (@each_element X el).
Proof.
  unfold each_element. apply tallies_bind.
  { apply tallies_unchanged. now intros s a s' [= _ <-]. }
  intros w.
  destruct (negb (hasDirectTextDescendant X w el)).
  { apply tallies_unchanged. now intros s a s' [= _ <-]. }
  destruct (0 <? length (parents X w el ".tota11y"))%nat.
  { apply tallies_unchanged. now intros s a s' [= _ <-]. }
  destruct (elementIsTransparent X w el || elementHasZeroArea X w el).
  { apply tallies_unchanged. now intros s a s' [= _ <-]. }
  apply tallies_bind.
  { apply tallies_unchanged. now intros s a s' [= _ <-]. }
  intros parse. apply tallies_forEach. intros [b bn].
  apply tallies_runOneType.
Qed.

Lemma tallies_element_loop : tallies (@element_loop X).
Proof.
  unfold element_loop. apply tallies_bind.
  { apply tallies_unchanged. now intros s a s' [= _ <-]. }
  intros w. apply tallies_forEach, tallies_each_element.
Qed.

(** X13: in a completed run, the first reports (success labels and error
    entries) are as many as the keys the registry ends with: every
    combination is surfaced once, however many elements show it.  The
    trace of the run extends the trace before it. *)
Theorem run_reports_once_per_key (s s' : state X) :
  run s = (Ok tt, s') ->
  all_truthy s' /\
  exists new,
    calls s' = calls s ++ new /\
    first_reports new = size (combinations s').
Proof.
  rewrite run_unfold.
  assert (all_truthy
            (mkState (world s) (parseColor_proxy (parseColor s)) ∅ (calls s)))
    as Hempty.
  { intros key v. simpl. rewrite lookup_empty. discriminate. }
  destruct (element_loop _) as [[[] | e] s1] eqn:Hloop; [ | discriminate].
  intros [= <-]. simpl.
  destruct (tallies_element_loop _ _ _ Hempty Hloop)
    as (Ht & new & Hcalls & Hsize).
  split; [exact Ht | ]. exists new. split; [exact Hcalls | ].
  simpl in Hsize. rewrite map_size_empty in Hsize. lia.
Qed.

Lemma each_element_skipped (el : Elem X) (s : state X) :
  skipped X (world s) el = true -> each_element el s = (Ok tt, s).
Proof.
  unfold skipped, each_element. unfold_monad. simpl.
  destruct (negb (hasDirectTextDescendant X (world s) el));
    [reflexivity | ].
  destruct (0 <? length (parents X (world s) el ".tota11y"))%nat;
    [reflexivity | ].
  destruct (elementIsTransparent X (world s) el ||
            elementHasZeroArea X (world s) el); [reflexivity | ].
  discriminate.
Qed.

(** X14: on a page where every element is passed over (it has no text of
    its own, lies inside the tota11y UI, is transparent or has no area),
    and so on an empty page, [run] completes without a single call and
    leaves the page and [axs.utils.parseColor] as they were. *)
Theorem run_nothing_to_check (s : state X) :
  Forall (fun el => skipped X (world s) el = true)
    (select_all X (world s)) ->
  run s = (Ok tt, mkState (world s) (parseColor s) ∅ (calls s)).
Proof.
  intros Hall. rewrite run_unfold.
  set (s0 := mkState (world s) (parseColor_proxy (parseColor s)) ∅ (calls s)).
  assert (forall l,
             Forall (fun el => skipped X (world s0) el = true) l ->
             forEach l each_element s0 = (Ok tt, s0)) as Hloop.
  { induction 1 as [ | el l Hel _ IH]; simpl; [reflexivity | ].
    unfold bind. now rewrite (each_element_skipped el s0 Hel). }
  unfold element_loop, bind, get_world. simpl.
  now rewrite (Hloop _ Hall).
Qed.

(** X15: the proxy is idempotent, and where the saved parser already
    answers the text transparent with the colour (0, 0, 0, 0) the proxy is
    the saved parser. *)
Theorem parseColor_proxy_idempotent (p : string -> option Color) :
  (forall colorString,
      parseColor_proxy (parseColor_proxy p) colorString =
        parseColor_proxy p colorString) /\
  (p "transparent" = Some (mkColor (of_Z 0) (of_Z 0) (of_Z 0) (of_Z 0)) ->
   forall colorString, parseColor_proxy p colorString = p colorString).
Proof.
  split.
  - intros colorString. unfold parseColor_proxy.
    now destruct (String.eqb colorString "transparent").
  - intros Hp colorString. unfold parseColor_proxy.
    destruct (String.eqb_spec colorString "transparent") as [-> | _];
      [now rewrite Hp | reflexivity].
Qed.

Lemma forEach_app {A : Type} (l1 l2 : list A) (body : A -> M X unit)
    (s : state X) :
  forEach (l1 ++ l2) body s =
    bind (forEach l1 body) (fun _ => forEach l2 body) s.
Proof.
  revert s. induction l1 as [ | x l1 IH]; intros s; simpl.
  - reflexivity.
  - unfold bind. destruct (body x s) as [[[] | e] s1]; [ | reflexivity].
    rewrite IH. reflexivity.
Qed.

(** X16: a loop stops at the first exception: when the body throws for an
    item, the items after it are not visited, and the loop ends with that
    error in the state the body left. *)
Theorem forEach_stops_at_throw {A : Type} (l1 l2 : list A) (x : A)
    (body : A -> M X unit) (s s1 s2 : state X) (e : string) :
  forEach l1 body s = (Ok tt, s1) ->
  body x s1 = (Throw e, s2) ->
  forEach (l1 ++ x :: l2) body s = (Throw e, s2).
Proof.
  intros H1 Hx. rewrite forEach_app. unfold bind. rewrite H1. simpl.
  unfold bind. now rewrite Hx.
Qed.

End More_run_facts.

(** ** The further statements at work on the small pages *)

Lemma runOneType_blind_throws_witness :
  runOneType (X := Demo.env) 1%nat Demo.red Demo.green false
    "achroma" "achromatopsia" Demo.initial =
    (Throw "unsupported deficiency", Demo.initial).
Proof.
  apply (runOneType_blind_throws Demo.env).
  left. vm_compute. reflexivity.
Defined.

Lemma runOneType_frame_witness :
  parseColor (Demo.after 4 Demo.red Demo.green false Demo.initial) =
    parseColor Demo.initial /\
  (exists new,
      calls (Demo.after 4 Demo.red Demo.green false Demo.initial) =
        calls Demo.initial ++ new /\ length new <= 2) /\
  forall key,
    key <>
      key_of Demo.env Demo.red Demo.green "protan"
        (@requiredRatio_of Demo.env false) ->
    combinations (Demo.after 4 Demo.red Demo.green false Demo.initial) !!
      key = combinations Demo.initial !! key.
Proof.
  apply (runOneType_frame Demo.env 4%nat Demo.red Demo.green false
           "protan" "protanopia" Demo.initial (Ok tt)).
  apply after_completes. vm_compute. reflexivity.
Defined.

Lemma runOneType_completed_shapes_witness :
  exists fg' bg',
    blind Demo.confuse Demo.white "protan" = Ok fg' /\
    blind Demo.confuse Demo.black "protan" = Ok bg' /\
    (isLowContrast Demo.env (ratio_text Demo.env fg' bg') false = false /\
     seen Demo.initial
       (key_of Demo.env Demo.white Demo.black "protan"
          (@requiredRatio_of Demo.env false)) /\
     Demo.after 2 Demo.white Demo.black false Demo.initial = Demo.initial \/
     isLowContrast Demo.env (ratio_text Demo.env fg' bg') false = false /\
     ~ seen Demo.initial
         (key_of Demo.env Demo.white Demo.black "protan"
            (@requiredRatio_of Demo.env false)) /\
     (exists lbl : Label Demo.env,
         calls (Demo.after 2 Demo.white Demo.black false Demo.initial) =
           calls Demo.initial ++
           [@CallLabel Demo.env 2%nat (ratio_text Demo.env fg' bg');
            CallAddClass lbl "tota11y-label-success"]) \/
     isLowContrast Demo.env (ratio_text Demo.env fg' bg') false = true /\
     seen Demo.initial
       (key_of Demo.env Demo.white Demo.black "protan"
          (@requiredRatio_of Demo.env false)) /\
     calls (Demo.after 2 Demo.white Demo.black false Demo.initial) =
       calls Demo.initial ++
       [@CallErrorLabel Demo.env 2%nat (ratio_text Demo.env fg' bg')
          insufficient_message
          (stored Demo.initial
             (key_of Demo.env Demo.white Demo.black "protan"
                (@requiredRatio_of Demo.env false)))] \/
     isLowContrast Demo.env (ratio_text Demo.env fg' bg') false = true /\
     ~ seen Demo.initial
         (key_of Demo.env Demo.white Demo.black "protan"
            (@requiredRatio_of Demo.env false)) /\
     (exists (title description : string) (entry : Entry Demo.env),
         calls (Demo.after 2 Demo.white Demo.black false Demo.initial) =
           calls Demo.initial ++
           [@CallError Demo.env title description 2%nat;
            @CallErrorLabel Demo.env 2%nat (ratio_text Demo.env fg' bg')
              insufficient_message (VObject entry)])).
Proof.
  apply (runOneType_completed_shapes Demo.env 2%nat Demo.white Demo.black
           false "protan" "protanopia" Demo.initial).
  apply after_completes. vm_compute. reflexivity.
Defined.

Lemma runOneType_throw_registry_witness :
  combinations
    (snd (runOneType (X := Pages.no_errorLabels) 4%nat Demo.red Demo.green
            false "protan" "protanopia"
            (Pages.start Pages.no_errorLabels 0%nat))) =
    combinations (Pages.start Pages.no_errorLabels 0%nat) \/
  ~ seen (Pages.start Pages.no_errorLabels 0%nat)
      (key_of Pages.no_errorLabels Demo.red Demo.green "protan"
         (@requiredRatio_of Pages.no_errorLabels false)) /\
  exists entry : Entry Pages.no_errorLabels,
    combinations
      (snd (runOneType (X := Pages.no_errorLabels) 4%nat Demo.red Demo.green
              false "protan" "protanopia"
              (Pages.start Pages.no_errorLabels 0%nat))) =
      <[key_of Pages.no_errorLabels Demo.red Demo.green "protan"
          (@requiredRatio_of Pages.no_errorLabels false) := VObject entry]>
        (combinations (Pages.start Pages.no_errorLabels 0%nat)).
Proof.
  apply (runOneType_throw_registry Pages.no_errorLabels 4%nat
           Demo.red Demo.green false "protan" "protanopia"
           (Pages.start Pages.no_errorLabels 0%nat) "errorLabel").
  apply (throws_eq
           (runOneType (X := Pages.no_errorLabels) 4%nat Demo.red Demo.green
              false "protan" "protanopia")
           (Pages.start Pages.no_errorLabels 0%nat) "errorLabel").
  vm_compute. reflexivity.
Defined.

Lemma failing_sample_always_labelled_witness :
  exists (before : list (call Demo.env)) (v : value (Entry Demo.env)),
    calls (Demo.after 4 Demo.red Demo.green false Demo.initial) =
      before ++
      [@CallErrorLabel Demo.env 4%nat
         (ratio_text Demo.env Demo.olive Demo.olive)
         insufficient_message v] /\
    ToBoolean v = true /\
    stored (Demo.after 4 Demo.red Demo.green false Demo.initial)
      (key_of Demo.env Demo.red Demo.green "protan"
         (@requiredRatio_of Demo.env false)) = v.
Proof.
  apply (failing_sample_always_labelled Demo.env 4%nat Demo.red Demo.green
           Demo.olive Demo.olive false "protan" "protanopia" Demo.initial).
  - vm_compute. reflexivity.
  - vm_compute. reflexivity.
  - vm_compute. reflexivity.
  - apply after_completes. vm_compute. reflexivity.
Defined.

Lemma report_made_from_simulated_colors_witness :
  exists entry : Entry Demo.env,
    calls (Demo.after 4 Demo.red Demo.green false Demo.initial) =
      calls Demo.initial ++
      [@CallError Demo.env
         (titleTemplate Demo.env
            (report_data Demo.env Demo.olive Demo.olive false "protanopia"))
         (descriptionTemplate Demo.env
            (report_data Demo.env Demo.olive Demo.olive false "protanopia"))
         4%nat;
       @CallErrorLabel Demo.env 4%nat
         (ratio_text Demo.env Demo.olive Demo.olive)
         insufficient_message (VObject entry)] /\
    combinations (Demo.after 4 Demo.red Demo.green false Demo.initial) !!
      (colorToString Demo.env Demo.red +:+ "/" +:+
       colorToString Demo.env Demo.green +:+ "/" +:+
       "protan" +:+ "/" +:+ @requiredRatio_of Demo.env false) =
      Some (VObject entry).
Proof.
  apply (report_made_from_simulated_colors Demo.env 4%nat
           Demo.red Demo.green Demo.olive Demo.olive false
           "protan" "protanopia" Demo.initial).
  - vm_compute. reflexivity.
  - vm_compute. reflexivity.
  - vm_compute. reflexivity.
  - vm_compute. discriminate.
  - apply after_completes. vm_compute. reflexivity.
Defined.

Lemma registry_only_grows_witness :
  all_truthy
    (Demo.after 4 Demo.red Demo.green false
       (Demo.after 2 Demo.white Demo.black false Demo.initial)) /\
  combinations Demo.initial ⊆
    combinations
      (Demo.after 4 Demo.red Demo.green false
         (Demo.after 2 Demo.white Demo.black false Demo.initial)) /\
  (forall key,
      seen
        (Demo.after 4 Demo.red Demo.green false
           (Demo.after 2 Demo.white Demo.black false Demo.initial)) key <->
      key ∈
        dom
          (combinations
             (Demo.after 4 Demo.red Demo.green false
                (Demo.after 2 Demo.white Demo.black false Demo.initial)))) /\
  exists new,
    calls
      (Demo.after 4 Demo.red Demo.green false
         (Demo.after 2 Demo.white Demo.black false Demo.initial)) =
      calls Demo.initial ++ new.
Proof.
  apply (registry_only_grows Demo.env Demo.initial).
  - eapply rtc_l; [apply step_after | ]. apply rtc_once, step_after.
  - intros key v. simpl. rewrite lookup_empty. discriminate.
Defined.

Lemma run_reports_once_per_key_witness :
  all_truthy (snd (run Demo.initial)) /\
  exists new,
    calls (snd (run Demo.initial)) = calls Demo.initial ++ new /\
    first_reports new = size (combinations (snd (run Demo.initial))).
Proof.
  apply (run_reports_once_per_key Demo.env Demo.initial).
  apply (completes_eq run Demo.initial tt). vm_compute. reflexivity.
Defined.

Lemma run_nothing_to_check_witness :
  run (Pages.start Pages.blank 0%nat) =
    (Ok tt, mkState (0%nat : World Pages.blank) Demo.parse ∅ []).
Proof.
  apply (run_nothing_to_check Pages.blank (Pages.start Pages.blank 0%nat)).
  repeat constructor.
Defined.

Lemma forEach_stops_at_throw_witness :
  forEach ([0%nat] ++ 2%nat :: [1%nat])
    (@each_element Pages.no_labels)
    (Pages.start Pages.no_labels 0%nat) =
    (Throw "label",
     snd (@each_element Pages.no_labels 2%nat
            (Pages.start Pages.no_labels 0%nat))).
Proof.
  apply (forEach_stops_at_throw Pages.no_labels [0%nat] [1%nat] 2%nat
           (@each_element Pages.no_labels)
           (Pages.start Pages.no_labels 0%nat)
           (Pages.start Pages.no_labels 0%nat)).
  - reflexivity.
  - apply (throws_eq (@each_element Pages.no_labels 2%nat)
             (Pages.start Pages.no_labels 0%nat) "label").
    vm_compute. reflexivity.
Defined.

(** X17: a run that the loop aborts leaves the proxy in
    [axs.utils.parseColor]; the saved parser is not put back. *)
Theorem aborted_run_keeps_proxy (X : externals) (s s' : state X)
    (e : string) :
  run s = (Throw e, s') ->
  parseColor s' = parseColor_proxy (parseColor s) /\
  parseColor s' "transparent" =
    Some (mkColor (of_Z 0) (of_Z 0) (of_Z 0) (of_Z 0)).
Proof.
  rewrite run_unfold.
  destruct (element_loop _) as [[[] | e'] s1] eqn:Hloop; [discriminate | ].
  intros [= <- <-]. rewrite (keeps_element_loop X _ _ _ Hloop). simpl.
  split; reflexivity.
Qed.

Lemma aborted_run_keeps_proxy_witness :
  parseColor (snd (run (Pages.start Pages.no_labels 0%nat))) =
    parseColor_proxy Demo.parse /\
  parseColor (snd (run (Pages.start Pages.no_labels 0%nat))) "transparent" =
    Some (mkColor (of_Z 0) (of_Z 0) (of_Z 0) (of_Z 0)).
Proof.
  apply (aborted_run_keeps_proxy Pages.no_labels
           (Pages.start Pages.no_labels 0%nat)
           (snd (run (Pages.start Pages.no_labels 0%nat))) "label").
  apply (throws_eq run (Pages.start Pages.no_labels 0%nat) "label").
  vm_compute. reflexivity.
Defined.
